(** * Gringo787_Pro: the sitemap / robots build scripts and the build validator

    A shallow embedding of the repository's Node scripts:

    - the sitemap builder that the upgrade bundle installs as
      [scripts/seo.js] (module [Seo]);
    - the earlier generation of the same step, [scripts/seo.js] and
      [scripts/robots.js] (modules [LegacySeo] and [Robots]);
    - [scripts/validate-build.js] (module [ValidateBuild]).

    JavaScript strings are sequences of UTF-16 code units; file system
    calls thread an explicit world (disk and event log) through a small
    error monad, an uncaught exception ending the process with exit code 1. *)

From Stdlib Require Import Ascii String DecimalString.
From Stdlib Require Import List NArith ZArith QArith Bool Lia Permutation.
Import ListNotations.

Set Implicit Arguments.

(* ================================================================== *)
(** ** JavaScript strings *)
(* ================================================================== *)

(** A string value: its UTF-16 code units. *)
Definition str := list N.

(** A string literal of the source. *)
Definition js (s : String.string) : str :=
  map N_of_ascii (String.list_ascii_of_string s).
Arguments js s%_string.

(** The line feed written [\n] in the source's literals. *)
Definition nl : str := [10%N].

Module JS.

(** [a === b] on strings. *)
Fixpoint eqb (a b : str) : bool :=
  match a, b with
  | [], [] => true
  | x :: a', y :: b' => N.eqb x y && eqb a' b'
  | _, _ => false
  end.

(** [s.startsWith(p)] *)
Fixpoint startsWith (s p : str) {struct p} : bool :=
  match p with
  | [] => true
  | y :: p' =>
      match s with
      | [] => false
      | x :: s' => N.eqb x y && startsWith s' p'
      end
  end.

(** [s.endsWith(p)]: the [length p] code units that end [s] are compared
    with [p]. *)
Definition endsWith (s p : str) : bool :=
  (length p <=? length s)%nat && eqb (skipn (length s - length p) s) p.

(** [s.includes(p)] *)
Fixpoint includes (s p : str) : bool :=
  startsWith s p ||
  match s with
  | [] => false
  | _ :: s' => includes s' p
  end.

(** [s.replace(pat, rep)] with a string pattern: only the first
    occurrence of [pat] is replaced ([rep] holds no [$]). *)
Fixpoint replace (s pat rep : str) : str :=
  if startsWith s pat then rep ++ skipn (length pat) s
  else match s with
       | [] => []
       | c :: s' => c :: replace s' pat rep
       end.

(** [s.replace(/^p/, '')] for a literal [p]. *)
Definition replace_leading (s p : str) : str :=
  if startsWith s p then skipn (length p) s else s.

(** [s.replace(/p$/, '')] for a literal [p]. *)
Definition replace_trailing (s p : str) : str :=
  if endsWith s p then firstn (length s - length p) s else s.

(** [s.replace(/c/g, d)] for single code units [c] and [d]. *)
Definition replace_all_unit (s : str) (c d : N) : str :=
  map (fun x => if N.eqb x c then d else x) s.

(** [s.split(sep)] for a separator of one code unit. *)
Fixpoint split (s : str) (sep : N) : list str :=
  match s with
  | [] => [[]]
  | c :: s' =>
      if N.eqb c sep then [] :: split s' sep
      else match split s' sep with
           | [] => [[c]]
           | seg :: rest => (c :: seg) :: rest
           end
  end.

(** White space and line terminators of ECMAScript, which [trim] removes. *)
Definition is_white (c : N) : bool :=
  existsb (N.eqb c)
    [9; 10; 11; 12; 13; 32; 160; 5760; 8192; 8193; 8194; 8195; 8196; 8197;
     8198; 8199; 8200; 8201; 8202; 8232; 8233; 8239; 8287; 12288; 65279]%N.

Fixpoint trimStart (s : str) : str :=
  match s with
  | [] => []
  | c :: s' => if is_white c then trimStart s' else s
  end.

Definition trimEnd (s : str) : str := rev (trimStart (rev s)).

(** [s.trim()] *)
Definition trim (s : str) : str := trimEnd (trimStart s).

(** [Array.prototype.join] *)
Fixpoint join (l : list str) (sep : str) : str :=
  match l with
  | [] => []
  | [x] => x
  | x :: l' => x ++ sep ++ join l' sep
  end.

End JS.

(* ================================================================== *)
(** ** Glob patterns, as globby matches them *)
(* ================================================================== *)

(** The fragment of the pattern language that the scripts use: segments
    separated by [/], each either the globstar [**] or a run of literal code
    units and [*] wildcards; a leading [!] negates a pattern. *)
Module Glob.

Inductive segment :=
| Globstar
| Seg (tokens : str).

Definition slash : N := 47.
Definition star : N := 42.
Definition dot_unit : N := 46.
Definition bang : N := 33.

Definition parse (pattern : str) : list segment :=
  map (fun s => if JS.eqb s (js "**") then Globstar else Seg s)
      (JS.split pattern slash).

(** One path segment against the tokens of a pattern segment: [*] stands
    for any run of code units. *)
Fixpoint match_tokens (toks name : str) : bool :=
  match toks with
  | [] => match name with [] => true | _ :: _ => false end
  | t :: toks' =>
      if N.eqb t star then
        (fix any (n : str) : bool :=
           match_tokens toks' n ||
           match n with [] => false | _ :: n' => any n' end) name
      else
        match name with
        | [] => false
        | c :: name' => N.eqb c t && match_tokens toks' name'
        end
  end.

Definition hidden (name : str) : bool :=
  match name with c :: _ => N.eqb c dot_unit | [] => false end.

Definition leading_wild (toks : str) : bool :=
  match toks with t :: _ => N.eqb t star | [] => false end.

(** Without the [dot] option a wildcard does not match the dot that
    starts a hidden name. *)
Definition match_segment (dot : bool) (toks name : str) : bool :=
  match_tokens toks name && (dot || negb (leading_wild toks && hidden name)).

(** [**] spans zero or more directories, hidden ones only under [dot]. *)
Fixpoint match_path (dot : bool) (pats : list segment) (names : list str)
  : bool :=
  match pats with
  | [] => match names with [] => true | _ :: _ => false end
  | Globstar :: pats' =>
      (fix skip (ns : list str) : bool :=
         match_path dot pats' ns ||
         match ns with
         | [] => false
         | n :: ns' => (dot || negb (hidden n)) && skip ns'
         end) names
  | Seg toks :: pats' =>
      match names with
      | [] => false
      | n :: names' => match_segment dot toks n && match_path dot pats' names'
      end
  end.

Definition matches (dot : bool) (pattern path : str) : bool :=
  match_path dot (parse pattern) (JS.split path slash).

Definition is_negative (pattern : str) : bool :=
  match pattern with c :: _ => N.eqb c bang | [] => false end.

(** The path itself and the directories above it, from the top down:
    the non-empty prefixes of its segments. *)
Fixpoint prefixes (names : list str) : list (list str) :=
  match names with
  | [] => []
  | n :: rest => [n] :: map (cons n) (prefixes rest)
  end.

(** Negative patterns become the [ignore] option of the positive patterns
    listed before them, and are matched with [dot] on.  The walk tests
    every entry against them, directories too, and does not enter a
    directory that one of them matches: a path is left out when a negative
    pattern matches it or a directory above it. *)
Definition ignored (rest : list str) (path : str) : bool :=
  existsb (fun pat =>
             is_negative pat &&
             existsb (match_path true (parse (skipn 1 pat)))
                     (prefixes (JS.split path slash)))
          rest.

Fixpoint selected (patterns : list str) (path : str) : bool :=
  match patterns with
  | [] => false
  | pat :: rest =>
      if is_negative pat then selected rest path
      else (matches false pat path && negb (ignored rest path))
           || selected rest path
  end.

Definition has_wildcard (seg : str) : bool := existsb (N.eqb star) seg.

Fixpoint static_segments (segs : list str) : list str :=
  match segs with
  | [] => []
  | s :: rest => if has_wildcard s then [] else s :: static_segments rest
  end.

(** The directory from which the walk for a pattern starts. *)
Definition base_directory (pattern : str) : str :=
  JS.join (static_segments (JS.split pattern slash)) (js "/").

End Glob.

(* ================================================================== *)
(** ** The file system and the process, as the scripts see them *)
(* ================================================================== *)

Module Node.

(** The errors of the file system calls, and the two with which a
    sitemap stream fails. *)
Inductive errno :=
| ENOENT | EACCES | EISDIR | ENOTDIR | EEXIST
| EmptySitemap
| ERR_INVALID_URL.

(** Paths are the strings the scripts pass, relative to the working
    directory, which always exists.  [files] lists the regular files in
    the order in which the directory walk of the run reports them: the
    globbing library promises no order and the scripts do not sort, so
    that the same files may come in another order in another run (see
    [reordered] below).  [unreadable] and [unwritable] are the paths on
    which the system refuses the access. *)
Record fs := mkFs {
  dirs : list str;
  files : list (str * str);
  unreadable : list str;
  unwritable : list str
}.

Inductive event :=
| Scanned (base : str)
| Probed (path : str)
| ReadFile (path : str)
| WroteFile (path content : str)
| MadeDir (path : str).

Record world (D : Type) := mkWorld { disk : D; log : list event }.
Arguments mkWorld {D} _ _.
Arguments disk {D} _.
Arguments log {D} _.

(** How a computation stops early: an exception thrown by a file system
    call, or [process.exit(code)]. *)
Inductive abort :=
| Thrown (e : errno)
| Exit (code : Z).

(** A computation over a disk of type [D] either stops early or returns,
    and changes the world. *)
Definition io (D A : Type) : Type := world D -> (abort + A) * world D.

Definition ret {D A} (a : A) : io D A := fun w => (inr a, w).

Definition throw {D A} (e : errno) : io D A := fun w => (inl (Thrown e), w).

(** [process.exit(code)] *)
Definition exit {D A} (code : Z) : io D A := fun w => (inl (Exit code), w).

Definition bind {D A B} (m : io D A) (k : A -> io D B) : io D B :=
  fun w =>
    match m w with
    | (inl e, w') => (inl e, w')
    | (inr a, w') => k a w'
    end.

(** [try { m } catch (err) { handler }] *)
Definition try_catch {D A} (m : io D A) (handler : errno -> io D A) : io D A :=
  fun w =>
    match m w with
    | (inl (Thrown e), w') => handler e w'
    | r => r
    end.

Definition emit {D} (e : event) : io D unit :=
  fun w => (inr tt, mkWorld (disk w) (log w ++ [e])).

Definition get_disk {D} : io D D := fun w => (inr (disk w), w).

Definition put_disk {D} (f : D) : io D unit :=
  fun w => (inr tt, mkWorld f (log w)).

Definition mem (p : str) (l : list str) : bool := existsb (JS.eqb p) l.

Fixpoint lookup (p : str) (l : list (str * str)) : option str :=
  match l with
  | [] => None
  | (q, c) :: l' => if JS.eqb q p then Some c else lookup p l'
  end.

Fixpoint store (p c : str) (l : list (str * str)) : list (str * str) :=
  match l with
  | [] => [(p, c)]
  | (q, d) :: l' => if JS.eqb q p then (p, c) :: l' else (q, d) :: store p c l'
  end.

(** [path.dirname] of a relative path. *)
Definition dirname (p : str) : str :=
  match rev (JS.split p Glob.slash) with
  | _ :: (_ :: _) as parents => JS.join (rev parents) (js "/")
  | _ => js "."
  end.

Definition is_dir (f : fs) (p : str) : bool :=
  JS.eqb p (js ".") || mem p (dirs f).

Definition is_file (f : fs) (p : str) : bool :=
  match lookup p (files f) with Some _ => true | None => false end.

(** Whether a new entry may be made at [p], or the file at [p] rewritten. *)
Definition refuses_write (f : fs) (p : str) : bool :=
  mem p (unwritable f) || (negb (is_file f p) && mem (dirname p) (unwritable f)).

End Node.

Declare Scope io_scope.
Delimit Scope io_scope with io.
Notation "x <- m ;; k" := (Node.bind m (fun x => k))
  (at level 61, m at next level, right associativity) : io_scope.
Notation "m ;; k" := (Node.bind m (fun _ => k))
  (at level 61, right associativity) : io_scope.

Module Fs.
Import Node.
Local Open Scope io_scope.

Definition with_file (f : fs) (p c : str) : fs :=
  mkFs (dirs f) (store p c (files f)) (unreadable f) (unwritable f).

Definition with_dir (f : fs) (p : str) : fs :=
  mkFs (dirs f ++ [p]) (files f) (unreadable f) (unwritable f).

(** [fs.existsSync]: true for a file or a directory, never throws. *)
Definition existsSync (p : str) : io fs bool :=
  emit (Probed p) ;;
  f <- get_disk ;;
  ret (is_dir f p || is_file f p).

(** What reading the file at [p] gives. *)
Definition read_result (f : fs) (p : str) : errno + str :=
  if is_dir f p then inl EISDIR
  else match lookup p (files f) with
       | None => inl ENOENT
       | Some c => if mem p (unreadable f) then inl EACCES else inr c
       end.

(** [fs.readFileSync(p, 'utf8')] *)
Definition readFileSync (p : str) : io fs str :=
  f <- get_disk ;;
  match read_result f p with
  | inl e => throw e
  | inr c => emit (ReadFile p) ;; ret c
  end.

(** Why writing the file at [p] fails, if it does. *)
Definition write_error (f : fs) (p : str) : option errno :=
  if is_dir f p then Some EISDIR
  else if negb (is_dir f (dirname p)) then Some ENOENT
  else if refuses_write f p then Some EACCES
  else None.

(** [fs.writeFileSync(p, c)] *)
Definition writeFileSync (p c : str) : io fs unit :=
  f <- get_disk ;;
  match write_error f p with
  | Some e => throw e
  | None => put_disk (with_file f p c) ;; emit (WroteFile p c)
  end.

(** [source.pipe(fs.createWriteStream(p))], where [produced] is what the
    source stream ends with.  Opening the file creates or empties it, and
    fails in the cases in which a write fails; when the source fails, the
    process dies with the file left empty, and the [finish] event of the
    write stream never comes. *)
Definition pipe_to_file (p : str) (produced : errno + str) : io fs unit :=
  f <- get_disk ;;
  match write_error f p with
  | Some e => throw e
  | None =>
      match produced with
      | inl e => put_disk (with_file f p []) ;; emit (WroteFile p []) ;; throw e
      | inr c => put_disk (with_file f p c) ;; emit (WroteFile p c)
      end
  end.

Definition mkdir_error (f : fs) (p : str) : option errno :=
  if is_dir f p || is_file f p then Some EEXIST
  else if negb (is_dir f (dirname p)) then Some ENOENT
  else if refuses_write f p then Some EACCES
  else None.

(** [fs.mkdirSync(p)] *)
Definition mkdirSync (p : str) : io fs unit :=
  f <- get_disk ;;
  match mkdir_error f p with
  | Some e => throw e
  | None => put_disk (with_dir f p) ;; emit (MadeDir p)
  end.

Definition below (base p : str) : bool := JS.startsWith p (base ++ js "/").

(** The directories a walk from [base] enters: [base] and those below it
    on a path without hidden names. *)
Definition entered (base d : str) : bool :=
  JS.eqb d base ||
  (below base d &&
   forallb (fun n => negb (Glob.hidden n))
           (JS.split (skipn (length base + 1) d) Glob.slash)).

(** What the walk of the globbing library from [base] reports: a missing
    base directory gives no entry (that error alone is suppressed), a
    directory that cannot be read makes the walk fail.  The files come in
    the order of [files], the order of this walk and of no other. *)
Definition scan_result (f : fs) (base : str) : errno + list str :=
  if negb (is_dir f base) then inr []
  else if existsb (fun d => entered base d && mem d (unreadable f)) (base :: dirs f)
  then inl EACCES
  else inr (filter (below base) (map fst (files f))).

Definition scan (base : str) : io fs (list str) :=
  f <- get_disk ;;
  match scan_result f base with
  | inl e => throw e
  | inr found => emit (Scanned base) ;; ret found
  end.

(** [globby(patterns)], for a list with one positive pattern, as both
    sitemap scripts pass. *)
Definition globby (patterns : list str) : io fs (list str) :=
  match filter (fun p => negb (Glob.is_negative p)) patterns with
  | [] => ret []
  | pos :: _ =>
      found <- scan (Glob.base_directory pos) ;;
      ret (filter (Glob.selected patterns) found)
  end.

End Fs.

(** What a run of a script leaves: the exit code of the process (0 at the
    end of the script, the code given to [process.exit], 1 after an
    exception nobody catches or, under the Node 20 of the workflow, a
    rejected promise nobody handles), the disk and the log. *)
Record outcome (D : Type) := mkOutcome {
  exit_code : Z;
  final : D;
  trace : list Node.event
}.
Arguments mkOutcome {D} _ _ _.
Arguments exit_code {D} _.
Arguments final {D} _.
Arguments trace {D} _.

Definition run_script {D} (main : Node.io D unit) (f : D) : outcome D :=
  match main (Node.mkWorld f []) with
  | (inl (Node.Thrown _), w) => mkOutcome 1 (Node.disk w) (Node.log w)
  | (inl (Node.Exit code), w) => mkOutcome code (Node.disk w) (Node.log w)
  | (inr _, w) => mkOutcome 0 (Node.disk w) (Node.log w)
  end.

(** The environment variables the scripts read ([None]: not set). *)
Record process_env := mkEnv {
  env_SITE_URL : option str;
  env_NODE_ENV : option str
}.

(* ================================================================== *)
(** ** The sitemap package *)
(* ================================================================== *)

Module Sitemap.

(** The object a script writes to the stream; the fields it leaves out
    are [None]. *)
Record item := mkItem {
  url : str;
  changefreq : option str;
  priority : option Q
}.

Definition quote : str := [34%N].

Definition decimal (z : Z) : str :=
  js (NilZero.string_of_uint (N.to_uint (Z.to_N z))).

(** Modelled from the spec: the package is a dependency, not part of the
    sources; the absolute URL of an entry is the stream's hostname
    followed by the item's url. *)
Definition loc (hostname : str) (i : item) : str := hostname ++ url i.

(** Modelled from the spec: a priority is printed with one decimal place
    (the number rounded to tenths, half up). *)
Definition toFixed1 (q : Q) : str :=
  let tenths := ((Qnum q * 20 + Zpos (Qden q)) / (2 * Zpos (Qden q)))%Z in
  decimal (tenths / 10) ++ js "." ++ decimal (tenths mod 10).

Definition element (name body : str) : str :=
  js "<" ++ name ++ js ">" ++ body ++ js "</" ++ name ++ js ">".

Definition optional {A} (f : A -> str) (o : option A) : str :=
  match o with Some a => f a | None => [] end.

(** Modelled from the spec: one [<url>] entry per item, with [<loc>],
    [<changefreq>] and [<priority>]. *)
Definition render_item (hostname : str) (i : item) : str :=
  js "<url>"
  ++ element (js "loc") (loc hostname i)
  ++ optional (element (js "changefreq")) (changefreq i)
  ++ optional (fun q => element (js "priority") (toFixed1 q)) (priority i)
  ++ js "</url>".

Definition header : str :=
  js "<?xml version=" ++ quote ++ js "1.0" ++ quote
  ++ js " encoding=" ++ quote ++ js "UTF-8" ++ quote ++ js "?>"
  ++ js "<urlset xmlns=" ++ quote
  ++ js "http://www.sitemaps.org/schemas/sitemap/0.9" ++ quote ++ js ">".

(** Modelled from the spec: the sitemap-protocol document that a
    [SitemapStream] for [hostname] produces from the items written to it. *)
Definition render (hostname : str) (items : list item) : str :=
  header ++ concat (map (render_item hostname) items) ++ js "</urlset>".

(** What follows the scheme of an [http] or [https] URL. *)
Definition authority (hostname : str) : option str :=
  if JS.startsWith hostname (js "https://") then Some (skipn 8 hostname)
  else if JS.startsWith hostname (js "http://") then Some (skipn 7 hostname)
  else None.

(** Modelled from the spec: the hostname has to be a well-formed absolute
    URL, a scheme and a host; each item's url is resolved against it, and
    the stream fails on the first item otherwise. *)
Definition accepts (hostname : str) : bool :=
  match authority hostname with
  | Some (c :: host) =>
      negb (N.eqb c 47) && forallb (fun x => negb (JS.is_white x)) (c :: host)
  | _ => false
  end.

(** What a [SitemapStream] for [hostname] ends with once the items are
    written to it and it is ended: the package refuses to end a stream to
    which nothing was written. *)
Definition stream (hostname : str) (items : list item) : Node.errno + str :=
  match items with
  | [] => inl Node.EmptySitemap
  | _ :: _ =>
      if accepts hostname then inr (render hostname items)
      else inl Node.ERR_INVALID_URL
  end.

End Sitemap.

(* ================================================================== *)
(** ** The sitemap builder (the [scripts/seo.js] of the upgrade bundle) *)
(* ================================================================== *)

Module Seo.
Import Node Fs.
Local Open Scope io_scope.

(** [process.env.SITE_URL || 'https://www.gringo787.com'] *)
Definition SITE_URL (env : process_env) : str :=
  match env_SITE_URL env with
  | Some (c :: s) => c :: s
  | _ => js "https://www.gringo787.com"
  end.

Definition GLOBS : list str :=
  [ js "public/**/*.html";
    js "!public/404.html";
    js "!public/**/thanks/index.html" ].

Definition normalized (url : str) : str :=
  if JS.endsWith url (js "/index.html")
  then JS.replace url (js "/index.html") (js "/")
  else url.

Definition priority (normalized : str) : Q :=
  if JS.eqb normalized (js "/") then 1
  else if JS.startsWith normalized (js "/services")
          || JS.startsWith normalized (js "/es/servicios") then 8 # 10
  else if JS.startsWith normalized (js "/contact")
          || JS.startsWith normalized (js "/es/contacto") then 9 # 10
  else 7 # 10.

Definition link (url : str) : Sitemap.item :=
  Sitemap.mkItem (normalized url)
                 (Some (js "weekly"))
                 (Some (priority (normalized url))).

Definition links (files : list str) : list Sitemap.item :=
  map link (map (fun p => JS.replace_leading p (js "public")) files).

Definition sitemapPath : str := js "public/sitemap.xml".
Definition robotsPath : str := js "public/robots.txt".

Definition desired (site : str) : str :=
  js "User-agent: *" ++ nl ++ js "Allow: /" ++ nl
  ++ js "Sitemap: " ++ site ++ js "/sitemap.xml" ++ nl.

(** The handler of the write stream's [finish] event. *)
Definition reconcile (site : str) : io fs unit :=
  present <- existsSync robotsPath ;;
  current <- (if present then readFileSync robotsPath else ret []) ;;
  if negb (JS.eqb (JS.trim current) (JS.trim (desired site)))
  then writeFileSync robotsPath (desired site)
  else ret tt.

Definition main (env : process_env) : io fs unit :=
  files <- globby GLOBS ;;
  pipe_to_file sitemapPath (Sitemap.stream (SITE_URL env) (links files)) ;;
  reconcile (SITE_URL env).

Definition run (env : process_env) (f : fs) : outcome fs :=
  run_script (main env) f.

End Seo.

(* ================================================================== *)
(** ** The earlier scripts: [scripts/seo.js] and [scripts/robots.js] *)
(* ================================================================== *)

Definition isProd (env : process_env) : bool :=
  match env_NODE_ENV env with
  | Some v => JS.eqb v (js "production")
  | None => false
  end.

Module LegacySeo.
Import Node Fs.
Local Open Scope io_scope.

Definition hostname (env : process_env) : str :=
  if isProd env then js "https://www.gringo787.com"
  else js "http://localhost:5173".

Definition patterns : list str :=
  [ js "public/**/*.html"; js "!public/404.html" ].

Definition url_of (page : str) : str :=
  JS.replace_all_unit
    (JS.replace_trailing (JS.replace_leading page (js "public"))
                         (js "index.html"))
    92 47.

Definition urls (pages : list str) : list str := map url_of pages.

(** [await streamToPromise(...)]: the promise is rejected when the
    stream fails, which the [await] turns into an exception. *)
Definition streamToPromise (produced : errno + str) : io fs str :=
  match produced with
  | inl e => throw e
  | inr xml => ret xml
  end.

Definition main (env : process_env) : io fs unit :=
  try_catch
    (pages <- globby patterns ;;
     xml <- streamToPromise
              (Sitemap.stream (hostname env)
                 (map (fun u => Sitemap.mkItem u None None) (urls pages))) ;;
     writeFileSync (js "public/sitemap.xml") xml)
    (fun err => exit 1).

Definition run (env : process_env) (f : fs) : outcome fs :=
  run_script (main env) f.

End LegacySeo.

Module Robots.
Import Node Fs.
Local Open Scope io_scope.

Definition siteUrl (env : process_env) : str :=
  if isProd env then js "https://www.gringo787.com"
  else js "http://localhost:5173".

Definition robotsContent (env : process_env) : str :=
  js "User-agent: *" ++ nl ++ js "Allow: /" ++ nl ++ nl
  ++ js "Sitemap: " ++ siteUrl env ++ js "/sitemap.xml" ++ nl.

Definition publicDir : str := js "public".

Definition main (env : process_env) : io fs unit :=
  present <- existsSync publicDir ;;
  (if negb present then mkdirSync publicDir else ret tt) ;;
  writeFileSync (js "public/robots.txt") (robotsContent env).

Definition run (env : process_env) (f : fs) : outcome fs :=
  run_script (main env) f.

End Robots.

(* ================================================================== *)
(** ** The build validator ([scripts/validate-build.js]) *)
(* ================================================================== *)

Module ValidateBuild.
Import Node.
Local Open Scope io_scope.

(** What the script reads of a file: the [href] of each
    [link[rel='stylesheet']] ([None] when the element has none) and the
    [src] of each [script[src]], in document order. *)
Record document := mkDoc {
  stylesheet_hrefs : list (option str);
  script_srcs : list str
}.

Inductive node :=
| Directory
| File (doc : document).

(** An absolute, normalised path: the names from the root down. *)
Definition path := list str.

Record tree := mkTree {
  cwd : path;
  entries : list (path * node)
}.

Fixpoint path_eqb (p q : path) : bool :=
  match p, q with
  | [], [] => true
  | a :: p', b :: q' => JS.eqb a b && path_eqb p' q'
  | _, _ => false
  end.

Fixpoint find_entry (p : path) (l : list (path * node)) : option node :=
  match l with
  | [] => None
  | (q, n) :: l' => if path_eqb q p then Some n else find_entry p l'
  end.

(** The root directory is always there. *)
Definition node_at (t : tree) (p : path) : option node :=
  match p with
  | [] => Some Directory
  | _ :: _ => find_entry p (entries t)
  end.

Definition show (p : path) : str := js "/" ++ JS.join p (js "/").

(** One name of a path under normalisation. *)
Definition step (acc : path) (name : str) : path :=
  if JS.eqb name (js "") || JS.eqb name (js ".") then acc
  else if JS.eqb name (js "..") then removelast acc
  else acc ++ [name].

Definition ends_with_slash (s : str) : bool :=
  match rev s with c :: _ => N.eqb c Glob.slash | [] => false end.

(** [path.join(dir, rel)] for an absolute [dir]: the normalised path and
    whether it keeps a trailing slash. *)
Definition join (dir : path) (rel : str) : path * bool :=
  (fold_left step (JS.split rel Glob.slash) dir, ends_with_slash rel).

(** Whether something exists at a path; a path with a trailing slash
    names directories only. *)
Definition present (t : tree) (p : path * bool) : bool :=
  match node_at t (fst p) with
  | Some Directory => true
  | Some (File _) => negb (snd p)
  | None => false
  end.

Definition existsSync (p : path * bool) : io tree bool :=
  emit (Probed (show (fst p))) ;;
  t <- get_disk ;;
  ret (present t p).

Definition child_of (dir : path) (e : path * node) : option (str * node) :=
  match rev (fst e) with
  | name :: parent => if path_eqb (rev parent) dir then Some (name, snd e) else None
  | [] => None
  end.

Fixpoint children (dir : path) (l : list (path * node)) : list (str * node) :=
  match l with
  | [] => []
  | e :: l' =>
      match child_of dir e with
      | Some c => c :: children dir l'
      | None => children dir l'
      end
  end.

(** [fs.readdirSync(dir, { withFileTypes: true })] *)
Definition readdirSync (dir : path) : io tree (list (str * node)) :=
  t <- get_disk ;;
  match node_at t dir with
  | None => throw ENOENT
  | Some (File _) => throw ENOTDIR
  | Some Directory => emit (Scanned (show dir)) ;; ret (children dir (entries t))
  end.

(** [fs.readFileSync(file, "utf-8")] followed by the two queries on the
    parsed document. *)
Definition readFileSync (p : path) : io tree document :=
  t <- get_disk ;;
  match node_at t p with
  | None => throw ENOENT
  | Some Directory => throw EISDIR
  | Some (File doc) => emit (ReadFile (show p)) ;; ret doc
  end.

(** [path.resolve("dist")] *)
Definition distDir (t : tree) : path := cwd t ++ [js "dist"].

Definition isFile (n : node) : bool :=
  match n with File _ => true | Directory => false end.

Definition htmlFiles (dist : path) (ents : list (str * node)) : list path :=
  map (fun f => dist ++ [fst f])
      (filter (fun f => isFile (snd f) && JS.endsWith (fst f) (js ".html")) ents).

Definition links (doc : document) : list (option str) :=
  stylesheet_hrefs doc ++ map Some (script_srcs doc).

(** [link.split("?")[0]] *)
Definition cleanLink (link : str) : str := hd [] (JS.split link 63).

Definition assetPath (dist : path) (link : str) : path * bool :=
  join dist (JS.replace_leading (cleanLink link) (js "/")).

Record missing := mkMissing { html : str; asset : str }.

(** The inner loop over the links of one file. *)
Fixpoint check_links (dist : path) (file : path) (ls : list (option str))
  : io tree (list missing) :=
  match ls with
  | [] => ret []
  | None :: ls' => check_links dist file ls'
  | Some [] :: ls' => check_links dist file ls'
  | Some link :: ls' =>
      found <- existsSync (assetPath dist link) ;;
      rest <- check_links dist file ls' ;;
      ret (if found then rest else mkMissing (last file []) link :: rest)
  end.

(** The outer loop over the HTML files. *)
Fixpoint check_files (dist : path) (fs : list path) : io tree (list missing) :=
  match fs with
  | [] => ret []
  | file :: fs' =>
      doc <- readFileSync file ;;
      here <- check_links dist file (links doc) ;;
      rest <- check_files dist fs' ;;
      ret (here ++ rest)
  end.

Definition main : io tree unit :=
  t <- get_disk ;;
  let dist := distDir t in
  ok <- existsSync (dist, false) ;;
  if negb ok then exit 1
  else
    ents <- readdirSync dist ;;
    missingAssets <- check_files dist (htmlFiles dist ents) ;;
    match missingAssets with
    | _ :: _ => exit 1
    | [] => ret tt
    end.

Definition run (t : tree) : outcome tree := run_script main t.

End ValidateBuild.


(* ================================================================== *)
(** ** The mobile navigation ([script.js]) *)
(* ================================================================== *)

Module Nav.

(** What the script reads and writes of an element: its [aria-expanded]
    attribute ([None] when it has none) and its class list. *)
Record element := mkElement {
  aria_expanded : option str;
  classes : list str
}.

(** The two elements the script looks up by id ([None]: no such element). *)
Record page := mkPage {
  hamburger : option element;
  mobileMenu : option element
}.

(** [classList.contains] *)
Definition contains (c : str) (l : list str) : bool := existsb (JS.eqb c) l.

(** [classList.toggle]: the token is removed when present, added at the end
    otherwise. *)
Definition toggle (c : str) (l : list str) : list str :=
  if contains c l then filter (fun x => negb (JS.eqb x c)) l else l ++ [c].

(** [String(b)] *)
Definition String_of_bool (b : bool) : str :=
  if b then js "true" else js "false".

(** [hamburger.getAttribute('aria-expanded') === 'true'] *)
Definition expanded (h : element) : bool :=
  match aria_expanded h with
  | Some v => JS.eqb v (js "true")
  | None => false
  end.

(** The listener of the hamburger's [click] event. *)
Definition on_click (h m : element) : element * element :=
  (mkElement (Some (String_of_bool (negb (expanded h)))) (classes h),
   mkElement (aria_expanded m) (toggle (js "hidden") (classes m))).

(** A click on the hamburger once the script has run: the listener is
    there only when both elements were found. *)
Definition click (p : page) : page :=
  match hamburger p, mobileMenu p with
  | Some h, Some m =>
      mkPage (Some (fst (on_click h m))) (Some (snd (on_click h m)))
  | _, _ => p
  end.

(** The menu is shown exactly when the hamburger says it is expanded. *)
Definition in_sync (p : page) : Prop :=
  match hamburger p, mobileMenu p with
  | Some h, Some m => expanded h = negb (contains (js "hidden") (classes m))
  | _, _ => True
  end.

(** A page as the site's markup has it: the menu hidden, the button not
    expanded. *)
Definition closed_page : page :=
  mkPage (Some (mkElement (Some (js "false")) [js "md:hidden"]))
         (Some (mkElement None [js "hidden"; js "px-4"])).

End Nav.

(* ================================================================== *)
(** ** The specification's statements, and what the proofs speak of *)
(* ================================================================== *)

(** URL derivation as the specification words it: a path that ends in
    [/index.html] gives that path with the suffix replaced by [/], any other
    path is kept, and the result never contains [index.html]. *)
Definition url_rule (url : str) : Prop :=
  (forall pre, url = pre ++ js "/index.html" -> Seo.normalized url = pre ++ js "/")
  /\ (JS.endsWith url (js "/index.html") = false -> Seo.normalized url = url)
  /\ JS.includes (Seo.normalized url) (js "index.html") = false.

(** Priority as the specification tabulates it, first match first:
    [/], then the contact pages, then the service pages, then the rest. *)
Definition priority_table (p : str) : Q :=
  if JS.eqb p (js "/") then 1
  else if JS.startsWith p (js "/contact")
          || JS.startsWith p (js "/es/contacto") then 9 # 10
  else if JS.startsWith p (js "/services")
          || JS.startsWith p (js "/es/servicios") then 8 # 10
  else 7 # 10.

(** The input HTML files among the paths a walk reports, and the pages
    the exclusion list names. *)
Definition is_html (p : str) : bool :=
  Glob.matches false (js "public/**/*.html") p.

Definition excluded (p : str) : bool :=
  Glob.matches true (js "public/404.html") p
  || Glob.matches true (js "public/**/thanks/index.html") p.

(** The items the builder writes to the sitemap stream when the walk of
    the output root reports the paths [found]. *)
Definition entries (found : list str) : list Sitemap.item :=
  Seo.links (filter (Glob.selected Seo.GLOBS) found).

(** The paths that the walk of the output root reports on a disk. *)
Definition listed (f : Node.fs) : list str :=
  match Fs.scan_result f (js "public") with
  | inr found => found
  | inl _ => []
  end.

(** The sitemap document for a disk and an environment. *)
Definition sitemap_document (env : process_env) (f : Node.fs) : str :=
  Sitemap.render (Seo.SITE_URL env) (entries (listed f)).

(** The content of a file on a disk, if the file is there. *)
Definition content (f : Node.fs) (p : str) : option str :=
  Node.lookup p (Node.files f).

(** A run wrote the file at [p]. *)
Definition wrote (p : str) (t : list Node.event) : Prop :=
  exists c, In (Node.WroteFile p c) t.

(** A run made a directory. *)
Definition made_dir (t : list Node.event) : Prop :=
  exists p, In (Node.MadeDir p) t.

(** The walk of the output root is not refused. *)
Definition walk_succeeds (f : Node.fs) : Prop :=
  exists found, Fs.scan_result f (js "public") = inr found.

(** The robots step, from a disk [f] and a log [t]. *)
Definition reconciled (site : str) (f : Node.fs) (t : list Node.event)
  : outcome Node.fs :=
  let t1 := t ++ [Node.Probed Seo.robotsPath] in
  let settle current t2 :=
      if negb (JS.eqb (JS.trim current) (JS.trim (Seo.desired site))) then
        match Fs.write_error f Seo.robotsPath with
        | Some _ => mkOutcome 1 f t2
        | None => mkOutcome 0 (Fs.with_file f Seo.robotsPath (Seo.desired site))
                            (t2 ++ [Node.WroteFile Seo.robotsPath (Seo.desired site)])
        end
      else mkOutcome 0 f t2 in
  if Node.is_dir f Seo.robotsPath || Node.is_file f Seo.robotsPath then
    match Fs.read_result f Seo.robotsPath with
    | inl _ => mkOutcome 1 f t1
    | inr current => settle current (t1 ++ [Node.ReadFile Seo.robotsPath])
    end
  else settle [] t1.

(** The site of the end-to-end scenario: five pages under the output root,
    with or without a robots file, and the origin of the scenario. *)
Definition example_env : process_env :=
  mkEnv (Some (js "https://www.example.com")) None.

Definition example_pages : list str :=
  [ js "public/index.html"; js "public/services/index.html";
    js "public/contact/index.html"; js "public/404.html";
    js "public/thanks/index.html" ].

Definition example_disk (robots : option str) : Node.fs :=
  Node.mkFs
    [ js "public"; js "public/services"; js "public/contact"; js "public/thanks" ]
    (map (fun p => (p, js "<!doctype html>")) example_pages
     ++ match robots with
        | Some c => [(Seo.robotsPath, c)]
        | None => []
        end)
    [] [].

Definition example_robots : str :=
  js "User-agent: *" ++ nl ++ js "Allow: /" ++ nl
  ++ js "Sitemap: https://www.example.com/sitemap.xml" ++ nl.

(** A robots file left by a build for another origin. *)
Definition stale_robots : str :=
  js "User-agent: *" ++ nl ++ js "Allow: /" ++ nl
  ++ js "Sitemap: https://staging.example.com/sitemap.xml" ++ nl.


(** The failure rule as the specification states it, for a script [run]:
    when the output root is missing the run ends with a non-zero exit code
    and makes no directory. *)
Definition fails_without_root (run : Node.fs -> outcome Node.fs) (f : Node.fs)
  : Prop :=
  Node.is_dir f (js "public") = false ->
  exit_code (run f) <> 0%Z
  /\ ~ made_dir (trace (run f))
  /\ Node.dirs (final (run f)) = Node.dirs f.

Definition empty_disk : Node.fs := Node.mkFs [] [] [] [].

(** The disk of the scenario with the output root closed to reading, and
    with the sitemap, or the robots file, closed to writing. *)
Definition unreadable_root_disk : Node.fs :=
  Node.mkFs (Node.dirs (example_disk None)) (Node.files (example_disk None))
            [js "public"] [].

Definition unwritable_disk (p : str) : Node.fs :=
  Node.mkFs (Node.dirs (example_disk None)) (Node.files (example_disk None))
            [] [p].

(** An event that changes nothing on the disk. *)
Definition read_only (e : Node.event) : Prop :=
  match e with
  | Node.WroteFile _ _ | Node.MadeDir _ => False
  | _ => True
  end.

(** A link the validator checks and finds nothing at. *)
Definition unresolved (t : ValidateBuild.tree) (link : option str) : bool :=
  match link with
  | Some (c :: l) =>
      negb (ValidateBuild.present t
              (ValidateBuild.assetPath (ValidateBuild.distDir t) (c :: l)))
  | _ => false
  end.

(** No link of the files [files] is unresolved. *)
Definition all_resolved (t : ValidateBuild.tree) (files : list ValidateBuild.path)
  : Prop :=
  forall file doc,
    In file files ->
    ValidateBuild.node_at t file = Some (ValidateBuild.File doc) ->
    existsb (unresolved t) (ValidateBuild.links doc) = false.

Fixpoint starts_with_path (p dir : ValidateBuild.path) : bool :=
  match dir with
  | [] => true
  | d :: dir' =>
      match p with
      | [] => false
      | a :: p' => JS.eqb a d && starts_with_path p' dir'
      end
  end.

(** The rule as the specification states it: a reference counts as found
    when, cut at its query and without its leading slash, it names a file
    under [dist]. *)
Definition file_under_dist (t : ValidateBuild.tree) (link : str) : bool :=
  let dist := ValidateBuild.distDir t in
  let p := fst (ValidateBuild.assetPath dist link) in
  starts_with_path p dist
  && negb (ValidateBuild.path_eqb p dist)
  && match ValidateBuild.node_at t p with
     | Some (ValidateBuild.File _) => true
     | _ => false
     end.

Definition referenced (doc : ValidateBuild.document) : list str :=
  flat_map (fun h => match h with Some l => [l] | None => [] end)
           (ValidateBuild.stylesheet_hrefs doc)
  ++ ValidateBuild.script_srcs doc.

Definition validator_rule (t : ValidateBuild.tree) : Prop :=
  let dist := ValidateBuild.distDir t in
  (exit_code (ValidateBuild.run t) <> 0%Z
   <-> ValidateBuild.node_at t dist = None
       \/ exists name doc link,
           ValidateBuild.node_at t (dist ++ [name]) = Some (ValidateBuild.File doc)
           /\ JS.endsWith name (js ".html") = true
           /\ In link (referenced doc)
           /\ file_under_dist t link = false)
  /\ final (ValidateBuild.run t) = t.

(** A build whose page loads a script from a directory of [dist] and one
    from beside [dist]. *)
Definition linked_build : ValidateBuild.tree :=
  ValidateBuild.mkTree [js "site"]
    [ ([js "site"], ValidateBuild.Directory);
      ([js "site"; js "vendor.js"],
       ValidateBuild.File (ValidateBuild.mkDoc [] []));
      ([js "site"; js "dist"], ValidateBuild.Directory);
      ([js "site"; js "dist"; js "assets"], ValidateBuild.Directory);
      ([js "site"; js "dist"; js "styles.css"],
       ValidateBuild.File (ValidateBuild.mkDoc [] []));
      ([js "site"; js "dist"; js "index.html"],
       ValidateBuild.File
         (ValidateBuild.mkDoc [Some (js "/styles.css?v=3")]
                              [js "/assets"; js "../vendor.js"])) ].

(** The same build with a stylesheet that is not there. *)
Definition broken_build : ValidateBuild.tree :=
  ValidateBuild.mkTree [js "site"]
    [ ([js "site"], ValidateBuild.Directory);
      ([js "site"; js "dist"], ValidateBuild.Directory);
      ([js "site"; js "dist"; js "index.html"],
       ValidateBuild.File
         (ValidateBuild.mkDoc [Some (js "/styles.css?v=3")] [])) ].

(** The disk of the scenario with a robots file that cannot be read. *)
Definition unreadable_robots_disk : Node.fs :=
  Node.mkFs (Node.dirs (example_disk None))
            (Node.files (example_disk (Some example_robots)))
            [Seo.robotsPath] [].

(** The environment of a production build without [SITE_URL]. *)
Definition production_env : process_env :=
  mkEnv None (Some (js "production")).

(** A build whose only page lies in a directory of [dist], and links a
    stylesheet that is not there. *)
Definition nested_build : ValidateBuild.tree :=
  ValidateBuild.mkTree [js "site"]
    [ ([js "site"], ValidateBuild.Directory);
      ([js "site"; js "dist"], ValidateBuild.Directory);
      ([js "site"; js "dist"; js "es"], ValidateBuild.Directory);
      ([js "site"; js "dist"; js "es"; js "index.html"],
       ValidateBuild.File
         (ValidateBuild.mkDoc [Some (js "/missing.css")] [])) ].

(** The names of a path that the exclusion list matches. *)
Definition names_excluded (names : list str) : bool :=
  Glob.match_path true (Glob.parse (js "public/404.html")) names
  || Glob.match_path true (Glob.parse (js "public/**/thanks/index.html")) names.

(** The pages that the walk leaves out on account of the exclusion list:
    those the list names, and those below a directory whose path it
    names. *)
Definition pruned (p : str) : bool :=
  existsb names_excluded (Glob.prefixes (JS.split p Glob.slash)).


(** A site with a page in a directory that is called [404.html]. *)
Definition not_found_directory_disk : Node.fs :=
  Node.mkFs
    [ js "public"; js "public/404.html" ]
    [ (js "public/index.html", js "<!doctype html>");
      (js "public/404.html/index.html", js "<!doctype html>") ]
    [] [].

(** Whether the sitemap stream of a run ends well: something is written
    to it, and the origin is one it accepts. *)
Definition stream_ok (env : process_env) (f : Node.fs) : bool :=
  match Sitemap.stream (Seo.SITE_URL env) (entries (listed f)) with
  | inr _ => true
  | inl _ => false
  end.

(** The same disk under another walk: the same directories, permissions
    and files, the files reported in another order. *)
Definition reordered (f g : Node.fs) : Prop :=
  Node.dirs g = Node.dirs f
  /\ Node.unreadable g = Node.unreadable f
  /\ Node.unwritable g = Node.unwritable f
  /\ Permutation (Node.files f) (Node.files g).

(** A walk that reports the second and the third file in the other
    order. *)
Definition walked_otherwise (f : Node.fs) : Node.fs :=
  Node.mkFs (Node.dirs f)
            (match Node.files f with
             | a :: b :: c :: rest => a :: c :: b :: rest
             | l => l
             end)
            (Node.unreadable f) (Node.unwritable f).

(** A site without a page that enters the sitemap, with a robots file
    left by a build for another origin. *)
Definition pageless_disk : Node.fs :=
  Node.mkFs [ js "public" ]
            [ (js "public/404.html", js "<!doctype html>");
              (Seo.robotsPath, stale_robots) ]
            [] [].

(** A site whose only page is in a directory called [thanks/index.html]. *)
Definition thanks_directory_page : str := js "public/thanks/index.html/x.html".

Unset Implicit Arguments.
(* ================================================================== *)
(** ** The definitions on small inputs *)
(* ================================================================== *)

Example startsWith_ex : JS.startsWith (js "/services/") (js "/services") = true.
Proof. reflexivity. Qed.
Example replace_ex : JS.replace (js "/a/index.html") (js "/index.html") (js "/") = js "/a/".
Proof. reflexivity. Qed.
Example split_ex : JS.split (js "public/a/") 47 = [js "public"; js "a"; js ""].
Proof. reflexivity. Qed.
Example trim_ex : JS.trim (js "  a b " ++ nl) = js "a b".
Proof. reflexivity. Qed.
Example glob_ex1 : Glob.matches false (js "public/**/*.html") (js "public/index.html") = true.
Proof. reflexivity. Qed.
Example glob_ex2 : Glob.matches false (js "public/**/*.html") (js "public/es/servicios/index.html") = true.
Proof. reflexivity. Qed.
Example glob_ex3 : Glob.matches false (js "public/**/*.html") (js "public/.well-known/x.html") = false.
Proof. reflexivity. Qed.
Example glob_ex4 : Glob.matches true (js "public/**/thanks/index.html") (js "public/thanks/index.html") = true.
Proof. reflexivity. Qed.
Example glob_ex5 : Glob.matches false (js "public/**/*.html") (js "public/styles.css") = false.
Proof. reflexivity. Qed.
Example glob_ex6 : Glob.base_directory (js "public/**/*.html") = js "public".
Proof. reflexivity. Qed.

(* ================================================================== *)
(** ** Facts about the string operations *)
(* ================================================================== *)

Section StringFacts.

Lemma eqb_refl (a : str) : JS.eqb a a = true.
Proof.
  induction a as [|x a IH]; simpl; [reflexivity|].
  now rewrite N.eqb_refl, IH.
Qed.

Lemma eqb_eq (a b : str) : JS.eqb a b = true <-> a = b.
Proof.
  split; [|intros ->; apply eqb_refl].
  revert b; induction a as [|x a IH]; intros [|y b]; simpl; try discriminate; auto.
  intros H. apply andb_true_iff in H as [Hx Hab].
  apply N.eqb_eq in Hx. f_equal; auto.
Qed.

Lemma eqb_neq (a b : str) : JS.eqb a b = false <-> a <> b.
Proof.
  rewrite <- eqb_eq. destruct (JS.eqb a b); split; congruence.
Qed.

Lemma startsWith_app (p t : str) : JS.startsWith (p ++ t) p = true.
Proof.
  induction p as [|y p IH]; simpl; [reflexivity|].
  now rewrite N.eqb_refl, IH.
Qed.

Lemma startsWith_skipn (s p : str) :
  JS.startsWith s p = true -> s = p ++ skipn (length p) s.
Proof.
  revert s; induction p as [|y p IH]; intros s; simpl; [reflexivity|].
  destruct s as [|x s]; [discriminate|].
  intros H. apply andb_true_iff in H as [Hx Hs].
  apply N.eqb_eq in Hx. subst y. f_equal. now apply IH.
Qed.

Lemma startsWith_spec (s p : str) :
  JS.startsWith s p = true <-> exists t, s = p ++ t.
Proof.
  split.
  - intros H. eexists. now apply startsWith_skipn.
  - intros [t ->]. apply startsWith_app.
Qed.

(** Two prefixes of one string agree as far as the shorter reaches. *)
Lemma startsWith_agree (s p q : str) :
  JS.startsWith s p = true -> JS.startsWith s q = true ->
  firstn (Nat.min (length p) (length q)) p
  = firstn (Nat.min (length p) (length q)) q.
Proof.
  revert p q; induction s as [|x s IH]; intros [|a p] [|b q]; simpl;
    try reflexivity; try discriminate.
  intros Hp Hq.
  apply andb_true_iff in Hp as [Ha Hp]. apply andb_true_iff in Hq as [Hb Hq].
  apply N.eqb_eq in Ha, Hb. subst. f_equal. now apply IH.
Qed.

Lemma endsWith_app (pre p : str) : JS.endsWith (pre ++ p) p = true.
Proof.
  unfold JS.endsWith. rewrite length_app.
  apply andb_true_iff. split.
  - apply Nat.leb_le. lia.
  - replace (length pre + length p - length p)%nat with (length pre + 0)%nat by lia.
    rewrite skipn_app, Nat.add_0_r, skipn_all.
    replace (length pre - length pre)%nat with 0%nat by lia.
    apply eqb_refl.
Qed.

Lemma endsWith_split (s p : str) :
  JS.endsWith s p = true -> s = firstn (length s - length p) s ++ p.
Proof.
  unfold JS.endsWith. intros H.
  apply andb_true_iff in H as [_ H]. apply eqb_eq in H.
  set (k := (length s - length p)%nat) in *.
  rewrite <- H, firstn_skipn. reflexivity.
Qed.

Lemma endsWith_spec (s p : str) :
  JS.endsWith s p = true <-> exists pre, s = pre ++ p.
Proof.
  split.
  - intros H. eexists. now apply endsWith_split.
  - intros [pre ->]. apply endsWith_app.
Qed.

Lemma includes_here (s p : str) :
  JS.startsWith s p = true -> JS.includes s p = true.
Proof.
  intros H. destruct s; simpl; now rewrite H.
Qed.

Lemma includes_spec (s p : str) :
  JS.includes s p = true <-> exists a b, s = a ++ p ++ b.
Proof.
  split.
  - induction s as [|x s IH]; simpl; intros H.
    + rewrite orb_false_r in H. apply startsWith_spec in H as [t Ht].
      exists [], t. exact Ht.
    + apply orb_true_iff in H as [H|H].
      * apply startsWith_spec in H as [t Ht]. exists [], t. exact Ht.
      * destruct (IH H) as (a & b & ->). now exists (x :: a), b.
  - intros (a & b & ->). induction a as [|x a IH].
    + apply includes_here. exact (startsWith_app p b).
    + simpl. rewrite IH. apply orb_true_r.
Qed.

Lemma replace_here (s pat rep : str) :
  JS.startsWith s pat = true ->
  JS.replace s pat rep = rep ++ skipn (length pat) s.
Proof.
  intros H. destruct s; simpl; now rewrite H.
Qed.

(** [replace] at the first occurrence: when no occurrence of [pat] starts
    inside [pre], it is the one after [pre] that is replaced. *)
Lemma replace_first (pre pat rep rest : str) :
  (forall a b, pre ++ pat ++ rest = a ++ pat ++ b -> length pre <= length a)%nat ->
  JS.replace (pre ++ pat ++ rest) pat rep = pre ++ rep ++ rest.
Proof.
  induction pre as [|x pre IH]; intros Hfirst.
  - simpl app. rewrite replace_here by apply startsWith_app.
    now rewrite skipn_app, skipn_all, Nat.sub_diag.
  - simpl app. simpl JS.replace.
    destruct (JS.startsWith (x :: pre ++ pat ++ rest) pat) eqn:Hs.
    + apply startsWith_spec in Hs as [t Ht].
      specialize (Hfirst [] t). simpl in Hfirst.
      specialize (Hfirst Ht). lia.
    + f_equal. apply IH. intros a b Hab.
      specialize (Hfirst (x :: a) b). simpl in Hfirst.
      rewrite Hab in Hfirst. specialize (Hfirst eq_refl). lia.
Qed.

Lemma replace_absent (s pat rep : str) :
  JS.includes s pat = false -> JS.replace s pat rep = s.
Proof.
  induction s as [|x s IH]; simpl; intros H;
    apply orb_false_iff in H as [H1 H2].
  - now rewrite H1.
  - rewrite H1. f_equal. now apply IH.
Qed.

End StringFacts.

(* ================================================================== *)
(** ** URL derivation *)
(* ================================================================== *)

Lemma includes_app_l (s t p : str) :
  JS.includes s p = true -> JS.includes (s ++ t) p = true.
Proof.
  intros H. apply includes_spec in H as (a & b & ->).
  apply includes_spec. exists a, (b ++ t). now rewrite <- !app_assoc.
Qed.

Lemma includes_longer (s p q : str) :
  JS.includes s (q ++ p) = true -> JS.includes s p = true.
Proof.
  intros H. apply includes_spec in H as (a & b & ->).
  apply includes_spec. exists (a ++ q), b. now rewrite <- !app_assoc.
Qed.

(** An occurrence that does not reach the end of [s] lies in [s] without its
    last code unit. *)
Lemma occurrence_before_end (a p b : str) :
  b <> [] -> JS.includes (removelast (a ++ p ++ b)) p = true.
Proof.
  intros Hb. rewrite !removelast_app; auto.
  - apply includes_spec. now exists a, (removelast b).
  - destruct p; simpl; [assumption|discriminate].
Qed.

(** The suffix is the first occurrence when no occurrence ends earlier. *)
Lemma replace_suffix (pre pat rep : str) :
  JS.includes (removelast (pre ++ pat)) pat = false ->
  JS.replace (pre ++ pat) pat rep = pre ++ rep.
Proof.
  intros Hnone.
  rewrite <- (app_nil_r pat) at 1. rewrite replace_first.
  - now rewrite app_nil_r.
  - intros a b Hab. rewrite app_nil_r in Hab.
    destruct (Nat.le_gt_cases (length pre) (length a)) as [|Hlt]; [assumption|].
    assert (Hb : b <> []).
    { intros ->. apply (f_equal (@length N)) in Hab.
      rewrite !length_app in Hab. simpl in Hab. lia. }
    rewrite Hab, occurrence_before_end in Hnone by assumption. discriminate.
Qed.

(** C3, as the code has it: a path that does not end in [/index.html] is
    kept as it is; a path that ends in [/index.html] and has no earlier
    occurrence of [/index.html] gives the path with that suffix replaced by
    [/], which ends in [/]; and the URL contains no [index.html] when the
    path contains none, or contains it only in its final [/index.html]. *)
Theorem url_derivation (url : str) :
  (JS.endsWith url (js "/index.html") = false -> Seo.normalized url = url)
  /\ (JS.endsWith url (js "/index.html") = true ->
      JS.includes (removelast url) (js "/index.html") = false ->
      exists pre, url = pre ++ js "/index.html"
                  /\ Seo.normalized url = pre ++ js "/"
                  /\ JS.endsWith (Seo.normalized url) (js "/") = true)
  /\ (JS.endsWith url (js "/index.html") = true ->
      JS.includes (removelast url) (js "index.html") = false ->
      JS.includes (Seo.normalized url) (js "index.html") = false)
  /\ (JS.includes url (js "index.html") = false ->
      JS.includes (Seo.normalized url) (js "index.html") = false).
Proof.
  assert (Hsuffix : forall u, JS.endsWith u (js "/index.html") = true ->
            JS.includes (removelast u) (js "/index.html") = false ->
            exists pre, u = pre ++ js "/index.html"
                        /\ Seo.normalized u = pre ++ js "/").
  { intros u Hend Hnone. unfold Seo.normalized. rewrite Hend.
    apply endsWith_spec in Hend as [pre ->]. exists pre. split; [reflexivity|].
    now apply replace_suffix. }
  split; [|split; [|split]].
  - intros Hend. unfold Seo.normalized. now rewrite Hend.
  - intros Hend Hnone. destruct (Hsuffix url Hend Hnone) as (pre & Hu & Hn).
    exists pre. repeat split; try assumption. rewrite Hn. apply endsWith_app.
  - intros Hend Hnone.
    assert (Hnone' : JS.includes (removelast url) (js "/index.html") = false).
    { destruct (JS.includes (removelast url) (js "/index.html")) eqn:E; [|reflexivity].
      change (js "/index.html") with (js "/" ++ js "index.html") in E.
      apply includes_longer in E. congruence. }
    destruct (Hsuffix url Hend Hnone') as (pre & Hu & Hn). rewrite Hn.
    destruct (JS.includes (pre ++ js "/") (js "index.html")) eqn:E; [|reflexivity].
    apply includes_app_l with (t := js "index.htm") in E.
    replace ((pre ++ js "/") ++ js "index.htm") with (removelast url) in E.
    + congruence.
    + subst url. rewrite removelast_app by discriminate.
      rewrite <- app_assoc. reflexivity.
  - intros Hnone. unfold Seo.normalized.
    destruct (JS.endsWith url (js "/index.html")) eqn:Hend; [|assumption].
    apply endsWith_spec in Hend as [pre ->].
    assert (JS.includes (pre ++ js "/index.html") (js "index.html") = true); [|congruence].
    apply includes_spec. exists (pre ++ js "/"), []. now rewrite <- app_assoc.
Qed.

Lemma url_derivation_witness :
  Seo.normalized (js "/404.html") = js "/404.html"
  /\ (exists pre, js "/es/servicios/index.html" = pre ++ js "/index.html"
                  /\ Seo.normalized (js "/es/servicios/index.html") = pre ++ js "/"
                  /\ JS.endsWith (Seo.normalized (js "/es/servicios/index.html")) (js "/") = true)
  /\ JS.includes (Seo.normalized (js "/es/servicios/index.html")) (js "index.html") = false
  /\ JS.includes (Seo.normalized (js "/about.html")) (js "index.html") = false.
Proof.
  split; [|split; [|split]].
  - apply (proj1 (url_derivation (js "/404.html"))). reflexivity.
  - apply (proj1 (proj2 (url_derivation (js "/es/servicios/index.html")))); reflexivity.
  - apply (proj1 (proj2 (proj2 (url_derivation (js "/es/servicios/index.html"))))); reflexivity.
  - apply (proj2 (proj2 (proj2 (url_derivation (js "/about.html"))))). reflexivity.
Defined.

(** C3 as the specification states it fails: a page whose name merely ends
    in [index.html] is kept as it is, so its URL contains [index.html]. *)
Lemma url_rule_fails : ~ url_rule (js "/old-index.html").
Proof.
  intros (_ & _ & H). vm_compute in H. discriminate.
Qed.

(** Only the first occurrence of [/index.html] is replaced: under a
    directory that is itself named [index.html] the suffix stays. *)
Example normalized_first_occurrence :
  Seo.normalized (js "/index.html/index.html") = js "//index.html".
Proof. reflexivity. Qed.

(** The earlier script removes the final [index.html] with an anchored
    pattern, whatever comes before it. *)
Example legacy_url_of_nested :
  LegacySeo.url_of (js "public/index.html/index.html") = js "/index.html/".
Proof. reflexivity. Qed.

(* ================================================================== *)
(** ** Priorities and the fields of an entry *)
(* ================================================================== *)

Ltac prefix_clash H1 H2 :=
  let X := fresh in
  pose proof (startsWith_agree _ _ _ H1 H2) as X; vm_compute in X; discriminate X.

(** C4: the priority of an entry is a function of its normalized path
    alone, and agrees with the specification's table read in its listed
    order (the code tests the service prefixes before the contact ones,
    which no path can both start with). *)
Theorem priority_first_match :
  (forall p, Seo.priority p = priority_table p)
  /\ (forall url, Sitemap.priority (Seo.link url)
                  = Some (priority_table (Seo.normalized url))).
Proof.
  assert (Heq : forall p, Seo.priority p = priority_table p).
  { intros p. unfold Seo.priority, priority_table.
    destruct (JS.eqb p (js "/")); [reflexivity|].
    destruct (JS.startsWith p (js "/services")) eqn:S1;
    destruct (JS.startsWith p (js "/es/servicios")) eqn:S2;
    destruct (JS.startsWith p (js "/contact")) eqn:C1;
    destruct (JS.startsWith p (js "/es/contacto")) eqn:C2;
    try reflexivity;
    solve [ prefix_clash S1 C1 | prefix_clash S1 C2
          | prefix_clash S2 C1 | prefix_clash S2 C2 ]. }
  split; [exact Heq|].
  intros url. simpl. now rewrite Heq.
Qed.



(* ================================================================== *)
(** ** The pages that enter the sitemap *)
(* ================================================================== *)

Lemma split_not_nil (s : str) (sep : N) : JS.split s sep <> [].
Proof.
  destruct s as [|c s]; simpl; [discriminate|].
  destruct (N.eqb c sep); [discriminate|].
  destruct (JS.split s sep); discriminate.
Qed.

Lemma join_split (s : str) (sep : N) : JS.join (JS.split s sep) [sep] = s.
Proof.
  induction s as [|c s IH]; [reflexivity|].
  simpl JS.split. destruct (N.eqb c sep) eqn:E.
  - apply N.eqb_eq in E. subst c.
    pose proof (split_not_nil s sep) as Hne.
    destruct (JS.split s sep) as [|seg rest]; [contradiction|].
    change (JS.join ([] :: seg :: rest) [sep])
      with ([] ++ [sep] ++ JS.join (seg :: rest) [sep]).
    rewrite IH. reflexivity.
  - destruct (JS.split s sep) as [|seg rest].
    + simpl in IH. subst s. reflexivity.
    + destruct rest as [|seg' rest].
      * simpl in *. now subst s.
      * change (JS.join ((c :: seg) :: seg' :: rest) [sep])
          with (c :: JS.join (seg :: seg' :: rest) [sep]).
        now rewrite IH.
Qed.

Lemma split_inj (s t : str) (sep : N) : JS.split s sep = JS.split t sep -> s = t.
Proof.
  intros H. rewrite <- (join_split s sep), <- (join_split t sep). now rewrite H.
Qed.

(** A pattern segment without wildcard matches its own name only. *)
Lemma match_tokens_literal (toks name : str) :
  Glob.has_wildcard toks = false ->
  Glob.match_tokens toks name = JS.eqb name toks.
Proof.
  revert name; induction toks as [|t toks IH]; intros name Hw.
  - destruct name; reflexivity.
  - unfold Glob.has_wildcard in Hw. cbn [existsb] in Hw.
    apply orb_false_iff in Hw as [Ht Hw].
    cbn [Glob.match_tokens]. rewrite N.eqb_sym, Ht.
    destruct name as [|c name]; [reflexivity|].
    cbn [JS.eqb]. now rewrite (IH name Hw).
Qed.

(** With [dot] on, a globstar stands for any run of names. *)
Lemma match_path_globstar (rest : list Glob.segment) (names : list str) :
  Glob.match_path true (Glob.Globstar :: rest) names = true
  <-> exists ds tl, names = ds ++ tl /\ Glob.match_path true rest tl = true.
Proof.
  split.
  - induction names as [|n names IH]; simpl; intros H.
    + rewrite orb_false_r in H. now exists [], [].
    + apply orb_true_iff in H as [H|H].
      * now exists [], (n :: names).
      * destruct (IH H) as (ds & tl & -> & Htl). now exists (n :: ds), tl.
  - intros (ds & tl & -> & Htl). induction ds as [|d ds IH].
    + simpl app. destruct tl; simpl; now rewrite Htl.
    + simpl. simpl in IH. rewrite IH. apply orb_true_r.
Qed.

(** The two patterns of the exclusion list, on the names of a path. *)
Lemma names_excluded_spec (names : list str) :
  names_excluded names = true
  <-> names = [js "public"; js "404.html"]
      \/ exists ds, names = js "public" :: ds ++ [js "thanks"; js "index.html"].
Proof.
  unfold names_excluded. rewrite orb_true_iff.
  enough ((Glob.match_path true (Glob.parse (js "public/404.html")) names = true
           <-> names = [js "public"; js "404.html"])
          /\ (Glob.match_path true (Glob.parse (js "public/**/thanks/index.html"))
                names = true
              <-> exists ds, names = js "public" :: ds ++ [js "thanks"; js "index.html"]))
    by tauto.
  split.
  - change (Glob.parse (js "public/404.html"))
      with [Glob.Seg (js "public"); Glob.Seg (js "404.html")].
    split.
    + intros H.
      destruct names as [|n1 [|n2 [|n3 l]]]; simpl in H; try discriminate.
      * now rewrite andb_false_r in H.
      * unfold Glob.match_segment in H.
        rewrite !match_tokens_literal in H by reflexivity.
        rewrite !andb_true_r in H. apply andb_true_iff in H as [H1 H2].
        apply eqb_eq in H1, H2. now subst.
      * now rewrite !andb_false_r in H.
    + intros ->. reflexivity.
  - change (Glob.parse (js "public/**/thanks/index.html"))
      with [Glob.Seg (js "public"); Glob.Globstar;
            Glob.Seg (js "thanks"); Glob.Seg (js "index.html")].
    destruct names as [|n1 names].
    + split; [discriminate|]. intros [ds H]. discriminate.
    + change (Glob.match_path true
                [Glob.Seg (js "public"); Glob.Globstar;
                 Glob.Seg (js "thanks"); Glob.Seg (js "index.html")] (n1 :: names))
        with (Glob.match_segment true (js "public") n1
              && Glob.match_path true
                   [Glob.Globstar; Glob.Seg (js "thanks"); Glob.Seg (js "index.html")]
                   names).
      unfold Glob.match_segment at 1.
      rewrite match_tokens_literal by reflexivity.
      rewrite andb_true_r, andb_true_iff, eqb_eq, match_path_globstar.
      split.
      * intros (-> & ds & tl & -> & H). exists ds. repeat f_equal.
        destruct tl as [|t1 [|t2 [|t3 l]]]; simpl in H; try discriminate.
        -- now rewrite andb_false_r in H.
        -- unfold Glob.match_segment in H.
           rewrite !match_tokens_literal in H by reflexivity.
           rewrite !andb_true_r in H. apply andb_true_iff in H as [H1 H2].
           apply eqb_eq in H1, H2. now subst.
        -- now rewrite !andb_false_r in H.
      * intros [ds H]. injection H as -> ->. split; [reflexivity|].
        now exists ds, [js "thanks"; js "index.html"].
Qed.

(** The exclusion list names the not-found page at the root of the site and
    the index page of every directory called [thanks]. *)
Lemma excluded_spec (p : str) :
  excluded p = true
  <-> p = js "public/404.html"
      \/ exists ds, JS.split p Glob.slash
                    = js "public" :: ds ++ [js "thanks"; js "index.html"].
Proof.
  change (excluded p) with (names_excluded (JS.split p Glob.slash)).
  rewrite names_excluded_spec. split; (intros [H|H]; [left|now right]).
  - now apply (split_inj _ _ Glob.slash).
  - now subst p.
Qed.

(** The prefixes of a list of names. *)
Lemma prefixes_spec (names q : list str) :
  In q (Glob.prefixes names) <-> q <> [] /\ exists rest, names = q ++ rest.
Proof.
  revert q; induction names as [|n names IH]; intros q; cbn [Glob.prefixes In].
  - split; [contradiction|]. intros [Hq [rest H]].
    destruct q; [contradiction|discriminate].
  - rewrite in_map_iff. split.
    + intros [<-|(q' & <- & Hq')].
      * split; [discriminate|]. now exists names.
      * apply IH in Hq' as [_ [rest ->]]. split; [discriminate|]. now exists rest.
    + intros [Hq [rest H]]. destruct q as [|x q]; [contradiction|].
      injection H as <- ->. destruct q as [|y q]; [now left|].
      right. exists (y :: q). split; [reflexivity|].
      apply IH. split; [discriminate|]. now exists rest.
Qed.

Lemma existsb_orb {A} (g h : A -> bool) (l : list A) :
  existsb (fun x => g x || h x) l = existsb g l || existsb h l.
Proof.
  induction l as [|x l IH]; cbn [existsb]; [reflexivity|].
  rewrite IH. destruct (g x), (h x), (existsb g l), (existsb h l); reflexivity.
Qed.

(** What the patterns of the builder select: the HTML files that the
    exclusion list does not remove from the walk. *)
Lemma selected_GLOBS (p : str) :
  Glob.selected Seo.GLOBS p = is_html p && negb (pruned p).
Proof.
  unfold Seo.GLOBS, is_html, pruned, names_excluded.
  cbn [Glob.selected Glob.ignored existsb].
  change (Glob.is_negative (js "public/**/*.html")) with false.
  change (Glob.is_negative (js "!public/404.html")) with true.
  change (Glob.is_negative (js "!public/**/thanks/index.html")) with true.
  change (skipn 1 (js "!public/404.html")) with (js "public/404.html").
  change (skipn 1 (js "!public/**/thanks/index.html"))
    with (js "public/**/thanks/index.html").
  cbn [andb]. now rewrite !orb_false_r, existsb_orb.
Qed.

(** A page that the list names is removed from the walk. *)
Lemma excluded_pruned (p : str) : excluded p = true -> pruned p = true.
Proof.
  intros H. unfold pruned. apply existsb_exists.
  exists (JS.split p Glob.slash). split; [|exact H].
  apply prefixes_spec. split; [apply split_not_nil|]. exists [].
  now rewrite app_nil_r.
Qed.

Lemma selected_html (p : str) :
  Glob.selected Seo.GLOBS p = true -> is_html p = true /\ excluded p = false.
Proof.
  rewrite selected_GLOBS. intros H. apply andb_true_iff in H as [Hh Hp].
  split; [exact Hh|]. apply negb_true_iff in Hp.
  destruct (excluded p) eqn:E; [|reflexivity].
  apply excluded_pruned in E. congruence.
Qed.





(** The thank-you and not-found pages of the site, and a not-found page
    deeper in the tree, which the list does not name. *)
Example excluded_pages :
  map excluded [js "public/404.html"; js "public/thanks/index.html";
                js "public/es/thanks/index.html"; js "public/es/404.html";
                js "public/index.html"]
  = [true; true; true; false; false].
Proof. reflexivity. Qed.

(** The earlier script leaves out the not-found page only. *)
Example legacy_selects_thanks :
  Glob.selected LegacySeo.patterns (js "public/thanks/index.html") = true.
Proof. reflexivity. Qed.

(** A directory that an exclusion pattern matches is not entered: the
    pages below it are left out by the scripts whose list has the
    pattern. *)
Example pages_below_excluded_directories :
  map (Glob.selected Seo.GLOBS)
      [js "public/404.html/index.html"; thanks_directory_page;
       js "public/es/404.html/index.html"]
  = [false; false; true]
  /\ map (Glob.selected LegacySeo.patterns)
         [js "public/404.html/index.html"; thanks_directory_page]
     = [false; true].
Proof. split; reflexivity. Qed.

(* ================================================================== *)
(** ** A run of the sitemap builder, step by step *)
(* ================================================================== *)

Ltac io_unfold :=
  unfold Fs.globby, Fs.scan, Fs.writeFileSync, Fs.readFileSync, Fs.existsSync,
         Fs.mkdirSync, Node.bind, Node.ret, Node.throw, Node.exit, Node.emit,
         Node.get_disk, Node.put_disk, Node.try_catch;
  cbn [Node.disk Node.log app].

Lemma reconcile_eq (site : str) (f : Node.fs) (t : list Node.event) :
  (match Seo.reconcile site (Node.mkWorld f t) with
   | (inl (Node.Thrown _), w) => mkOutcome 1 (Node.disk w) (Node.log w)
   | (inl (Node.Exit code), w) => mkOutcome code (Node.disk w) (Node.log w)
   | (inr _, w) => mkOutcome 0 (Node.disk w) (Node.log w)
   end) = reconciled site f t.
Proof.
  unfold Seo.reconcile, reconciled. io_unfold.
  destruct (Node.is_dir f Seo.robotsPath || Node.is_file f Seo.robotsPath);
    io_unfold.
  - destruct (Fs.read_result f Seo.robotsPath) as [e|current]; io_unfold;
      [reflexivity|].
    destruct (negb (JS.eqb (JS.trim current) (JS.trim (Seo.desired site))));
      io_unfold; [|reflexivity].
    destruct (Fs.write_error f Seo.robotsPath); reflexivity.
  - destruct (negb (JS.eqb (JS.trim []) (JS.trim (Seo.desired site))));
      io_unfold; [|reflexivity].
    destruct (Fs.write_error f Seo.robotsPath); reflexivity.
Qed.

(** What the stream of a run ends with. *)
Lemma stream_ok_true (env : process_env) (f : Node.fs) :
  stream_ok env f = true
  <-> Sitemap.stream (Seo.SITE_URL env) (entries (listed f))
      = inr (sitemap_document env f).
Proof.
  unfold stream_ok, sitemap_document, Sitemap.stream.
  destruct (entries (listed f)); [split; discriminate|].
  destruct (Sitemap.accepts (Seo.SITE_URL env)); split;
    (reflexivity || discriminate).
Qed.

Lemma stream_ok_spec (env : process_env) (f : Node.fs) :
  stream_ok env f = true
  <-> entries (listed f) <> [] /\ Sitemap.accepts (Seo.SITE_URL env) = true.
Proof.
  unfold stream_ok, Sitemap.stream.
  destruct (entries (listed f)).
  - split; [discriminate|]. now intros [H _].
  - destruct (Sitemap.accepts (Seo.SITE_URL env)); split;
      try discriminate; try (intros [_ H]; discriminate); auto.
    intros _. split; [discriminate|reflexivity].
Qed.

(** The whole run: the walk, the sitemap, then the robots step. *)
Lemma run_eq (env : process_env) (f : Node.fs) :
  Seo.run env f =
  match Fs.scan_result f (js "public") with
  | inl _ => mkOutcome 1 f []
  | inr _ =>
      match Fs.write_error f Seo.sitemapPath with
      | Some _ => mkOutcome 1 f [Node.Scanned (js "public")]
      | None =>
          if stream_ok env f then
            reconciled (Seo.SITE_URL env)
              (Fs.with_file f Seo.sitemapPath (sitemap_document env f))
              [Node.Scanned (js "public");
               Node.WroteFile Seo.sitemapPath (sitemap_document env f)]
          else
            mkOutcome 1 (Fs.with_file f Seo.sitemapPath [])
              [Node.Scanned (js "public"); Node.WroteFile Seo.sitemapPath []]
      end
  end.
Proof.
  pose proof (stream_ok_true env f) as Hok. revert Hok.
  unfold Seo.run, run_script, Seo.main, stream_ok, sitemap_document, listed, entries.
  unfold Fs.globby. change (filter _ Seo.GLOBS) with [js "public/**/*.html"].
  cbv iota beta. change (Glob.base_directory (js "public/**/*.html")) with (js "public").
  unfold Fs.pipe_to_file. io_unfold.
  destruct (Fs.scan_result f (js "public")) as [e|found]; io_unfold;
    [reflexivity|].
  destruct (Fs.write_error f Seo.sitemapPath) as [e|]; io_unfold; [reflexivity|].
  destruct (Sitemap.stream _ _) as [e|xml]; io_unfold; intros Hok.
  - reflexivity.
  - destruct Hok as [Hok _]. specialize (Hok eq_refl). injection Hok as ->.
    apply (reconcile_eq (Seo.SITE_URL env)).
Qed.

(** *** Files on the disk *)

Lemma lookup_store_same (p c : str) (l : list (str * str)) :
  Node.lookup p (Node.store p c l) = Some c.
Proof.
  induction l as [|[q d] l IH]; simpl.
  - now rewrite eqb_refl.
  - destruct (JS.eqb q p) eqn:E; simpl.
    + now rewrite eqb_refl.
    + now rewrite E.
Qed.

Lemma lookup_store_other (p q c : str) (l : list (str * str)) :
  p <> q -> Node.lookup q (Node.store p c l) = Node.lookup q l.
Proof.
  intros Hpq. induction l as [|[r d] l IH]; simpl.
  - apply eqb_neq in Hpq. now rewrite Hpq.
  - destruct (JS.eqb r p) eqn:E; simpl.
    + apply eqb_eq in E. subst r. apply eqb_neq in Hpq. now rewrite Hpq.
    + now rewrite IH.
Qed.

Lemma store_same (p c : str) (l : list (str * str)) :
  Node.lookup p l = Some c -> Node.store p c l = l.
Proof.
  induction l as [|[q d] l IH]; simpl; [discriminate|].
  destruct (JS.eqb q p) eqn:E.
  - intros [= ->]. apply eqb_eq in E. now subst q.
  - intros H. now rewrite IH.
Qed.

Lemma store_keys (p c : str) (l : list (str * str)) (keep : str -> bool) :
  keep p = false ->
  filter keep (map fst (Node.store p c l)) = filter keep (map fst l).
Proof.
  intros Hp. induction l as [|[q d] l IH]; simpl.
  - now rewrite Hp.
  - destruct (JS.eqb q p) eqn:E; simpl.
    + apply eqb_eq in E. subst q. reflexivity.
    + now rewrite IH.
Qed.

Lemma content_with_file_same (f : Node.fs) (p c : str) :
  content (Fs.with_file f p c) p = Some c.
Proof. apply lookup_store_same. Qed.

Lemma content_with_file_other (f : Node.fs) (p q c : str) :
  p <> q -> content (Fs.with_file f p c) q = content f q.
Proof. apply lookup_store_other. Qed.

Lemma is_file_content (f : Node.fs) (p : str) :
  Node.is_file f p = true <-> exists c, content f p = Some c.
Proof.
  unfold Node.is_file, content. destruct (Node.lookup p (Node.files f)).
  - split; eauto.
  - split; [discriminate|]. intros [c H]. discriminate.
Qed.

Lemma read_result_content (f : Node.fs) (p c : str) :
  Fs.read_result f p = inr c -> content f p = Some c.
Proof.
  unfold Fs.read_result, content.
  destruct (Node.is_dir f p); [discriminate|].
  destruct (Node.lookup p (Node.files f)); [|discriminate].
  destruct (Node.mem p (Node.unreadable f)); [discriminate|]. now intros [= ->].
Qed.

(** *** The two sides of the comparison *)

Lemma trimStart_keeps (s : str) (c : N) :
  In c s -> JS.is_white c = false -> JS.trimStart s <> [].
Proof.
  induction s as [|x s IH]; simpl; [contradiction|].
  intros [->|Hin] Hc.
  - now rewrite Hc.
  - destruct (JS.is_white x); [auto|discriminate].
Qed.

Lemma trim_desired_not_empty (site : str) : JS.trim (Seo.desired site) <> [].
Proof.
  unfold JS.trim, JS.trimEnd.
  change (Seo.desired site)
    with (85%N :: js "ser-agent: *" ++ nl ++ js "Allow: /" ++ nl
          ++ js "Sitemap: " ++ site ++ js "/sitemap.xml" ++ nl).
  cbn [JS.trimStart]. change (JS.is_white 85) with false. cbv iota.
  intros H. apply (f_equal (@rev N)) in H. rewrite rev_involutive in H.
  revert H. apply trimStart_keeps with (c := 85%N); [|reflexivity].
  apply in_rev. rewrite rev_involutive. now left.
Qed.

Lemma empty_differs_from_desired (site : str) :
  negb (JS.eqb (JS.trim []) (JS.trim (Seo.desired site))) = true.
Proof.
  apply negb_true_iff, eqb_neq. intros H.
  apply (trim_desired_not_empty site). now rewrite <- H.
Qed.

(** *** The ways the robots step ends *)

Lemma reconciled_cases (site : str) (f : Node.fs) (t : list Node.event) :
  (exit_code (reconciled site f t) = 0%Z \/ exit_code (reconciled site f t) = 1%Z)
  /\ (final (reconciled site f t) = f
      \/ final (reconciled site f t) = Fs.with_file f Seo.robotsPath (Seo.desired site))
  /\ (forall q, In (Node.ReadFile q) (trace (reconciled site f t)) ->
                In (Node.ReadFile q) t \/ q = Seo.robotsPath).
Proof.
  unfold reconciled.
  repeat match goal with
         | |- context [if ?b then _ else _] => destruct b
         | |- context [match ?x with inl _ => _ | inr _ => _ end] => destruct x
         | |- context [match ?x with Some _ => _ | None => _ end] => destruct x
         end; cbn [exit_code final trace];
    (split; [auto|split; [auto|]]);
    intros q Hq; repeat (apply in_app_or in Hq as [Hq|Hq]); auto;
    cbn [In] in Hq; destruct Hq as [Hq|[]]; try discriminate;
    injection Hq as <-; now right.
Qed.

(* ================================================================== *)
(** ** Robots reconciliation *)
(* ================================================================== *)

Lemma sitemap_not_robots : Seo.sitemapPath <> Seo.robotsPath.
Proof. intros H. vm_compute in H. discriminate. Qed.

Lemma wrote_app (p : str) (t u : list Node.event) :
  wrote p (t ++ u) <-> wrote p t \/ wrote p u.
Proof.
  unfold wrote. split.
  - intros [c H]. apply in_app_or in H as [H|H]; eauto.
  - intros [[c H]|[c H]]; exists c; apply in_or_app; auto.
Qed.

Lemma not_wrote_robots_before (xml : str) :
  ~ wrote Seo.robotsPath
      [Node.Scanned (js "public"); Node.WroteFile Seo.sitemapPath xml].
Proof.
  intros [c [H|[H|[]]]]; [discriminate|].
  injection H as H _. now apply sitemap_not_robots.
Qed.

Lemma not_wrote_probe_read (p q r : str) :
  ~ wrote p [Node.Probed q] /\ ~ wrote p [Node.ReadFile r].
Proof.
  split; intros [c [H|[]]]; discriminate.
Qed.

(** The robots step, read off [reconciled]: what it leaves when the file
    on the disk already agrees, and what a completed step leaves
    otherwise. *)
Lemma reconciled_agreeing (site : str) (f : Node.fs) (t : list Node.event) (c : str) :
  content f Seo.robotsPath = Some c ->
  JS.trim c = JS.trim (Seo.desired site) ->
  ~ wrote Seo.robotsPath t ->
  ~ wrote Seo.robotsPath (trace (reconciled site f t))
  /\ final (reconciled site f t) = f.
Proof.
  intros Hc Htrim Ht. unfold reconciled.
  destruct (not_wrote_probe_read Seo.robotsPath Seo.robotsPath Seo.robotsPath)
    as [Hp Hr].
  assert (Hfile : Node.is_file f Seo.robotsPath = true)
    by (apply is_file_content; eauto).
  rewrite Hfile, orb_true_r.
  destruct (Fs.read_result f Seo.robotsPath) as [e|current] eqn:Hread.
  - cbn [trace final]. rewrite wrote_app. tauto.
  - apply read_result_content in Hread. rewrite Hread in Hc. injection Hc as ->.
    rewrite Htrim, eqb_refl. cbn [negb trace final].
    rewrite !wrote_app. tauto.
Qed.

Lemma reconciled_differing (site : str) (f : Node.fs) (t : list Node.event) :
  (forall c, content f Seo.robotsPath = Some c ->
             JS.trim c <> JS.trim (Seo.desired site)) ->
  exit_code (reconciled site f t) = 0%Z ->
  In (Node.WroteFile Seo.robotsPath (Seo.desired site))
     (trace (reconciled site f t))
  /\ final (reconciled site f t)
     = Fs.with_file f Seo.robotsPath (Seo.desired site).
Proof.
  intros Hdiff. unfold reconciled.
  destruct (Node.is_dir f Seo.robotsPath || Node.is_file f Seo.robotsPath).
  - destruct (Fs.read_result f Seo.robotsPath) as [e|current] eqn:Hread;
      [discriminate|].
    apply read_result_content, Hdiff, eqb_neq in Hread. rewrite Hread.
    cbn [negb].
    destruct (Fs.write_error f Seo.robotsPath); [discriminate|].
    cbn [trace final]. intros _. split; [|reflexivity].
    apply in_or_app. right. now left.
  - rewrite empty_differs_from_desired.
    destruct (Fs.write_error f Seo.robotsPath); [discriminate|].
    cbn [trace final]. intros _. split; [|reflexivity].
    apply in_or_app. right. now left.
Qed.



(* ================================================================== *)
(** ** Running the builder again *)
(* ================================================================== *)

Lemma filter_filter_and {A} (g h : A -> bool) (l : list A) :
  filter g (filter h l) = filter (fun x => h x && g x) l.
Proof.
  induction l as [|x l IH]; simpl; [reflexivity|].
  destruct (h x); simpl; [destruct (g x)|]; now rewrite IH.
Qed.

Lemma with_file_same (f : Node.fs) (p c : str) :
  content f p = Some c -> Fs.with_file f p c = f.
Proof.
  intros H. destruct f as [ds fl ur uw]. unfold Fs.with_file, content in *.
  simpl in *. now rewrite store_same.
Qed.

Lemma is_dir_with_file (f : Node.fs) (p c q : str) :
  Node.is_dir (Fs.with_file f p c) q = Node.is_dir f q.
Proof. reflexivity. Qed.

(** Writing a file that the patterns do not select changes neither the
    outcome of the walk nor the entries. *)
Lemma scan_with_file (f : Node.fs) (p c : str) :
  match Fs.scan_result f (js "public"),
        Fs.scan_result (Fs.with_file f p c) (js "public") with
  | inl _, inl _ => True
  | inr _, inr _ => True
  | _, _ => False
  end.
Proof.
  unfold Fs.scan_result. rewrite is_dir_with_file. cbn [Node.dirs Node.unreadable Fs.with_file].
  destruct (negb (Node.is_dir f (js "public"))); [exact I|].
  destruct (existsb _ _); exact I.
Qed.

Lemma entries_with_file (f : Node.fs) (p c : str) :
  Glob.selected Seo.GLOBS p = false ->
  entries (listed (Fs.with_file f p c)) = entries (listed f).
Proof.
  intros Hp. unfold entries, listed, Fs.scan_result.
  rewrite is_dir_with_file. cbn [Node.dirs Node.unreadable Node.files Fs.with_file].
  destruct (negb (Node.is_dir f (js "public"))); [reflexivity|].
  destruct (existsb _ _); [reflexivity|].
  rewrite !filter_filter_and. rewrite store_keys; [reflexivity|].
  rewrite Hp. apply andb_false_r.
Qed.

Lemma sitemap_document_with_file (env : process_env) (f : Node.fs) (p c : str) :
  Glob.selected Seo.GLOBS p = false ->
  sitemap_document env (Fs.with_file f p c) = sitemap_document env f.
Proof.
  intros Hp. unfold sitemap_document. now rewrite entries_with_file.
Qed.

(** A completed robots step leaves a robots file that agrees. *)
Lemma reconciled_completed (site : str) (f : Node.fs) (t : list Node.event) :
  exit_code (reconciled site f t) = 0%Z ->
  Node.is_dir f Seo.robotsPath = false
  /\ (exists c, content (final (reconciled site f t)) Seo.robotsPath = Some c
                /\ JS.trim c = JS.trim (Seo.desired site))
  /\ (final (reconciled site f t) = f
      \/ final (reconciled site f t)
         = Fs.with_file f Seo.robotsPath (Seo.desired site))
  /\ (forall e, In e t -> In e (trace (reconciled site f t))).
Proof.
  unfold reconciled, Fs.read_result.
  destruct (Node.is_dir f Seo.robotsPath) eqn:Hdir; [discriminate|].
  cbn [orb].
  assert (Hsettle : forall current t2,
    (forall e, In e t -> In e t2) ->
    (content f Seo.robotsPath = Some current \/ current = []) ->
    let o := if negb (JS.eqb (JS.trim current) (JS.trim (Seo.desired site)))
             then match Fs.write_error f Seo.robotsPath with
                  | Some _ => mkOutcome 1 f t2
                  | None => mkOutcome 0 (Fs.with_file f Seo.robotsPath (Seo.desired site))
                              (t2 ++ [Node.WroteFile Seo.robotsPath (Seo.desired site)])
                  end
             else mkOutcome 0 f t2 in
    exit_code o = 0%Z ->
    false = false
    /\ (exists c, content (final o) Seo.robotsPath = Some c
                  /\ JS.trim c = JS.trim (Seo.desired site))
    /\ (final o = f \/ final o = Fs.with_file f Seo.robotsPath (Seo.desired site))
    /\ (forall e, In e t -> In e (trace o))).
  { intros current t2 Ht2 Hcur. cbv zeta.
    destruct (JS.eqb (JS.trim current) (JS.trim (Seo.desired site))) eqn:Heq;
      cbn [negb].
    - intros _. cbn [final trace]. split; [reflexivity|]. split; [|split; auto].
      exists current. destruct Hcur as [Hcur| ->].
      + apply eqb_eq in Heq. now split.
      + pose proof (empty_differs_from_desired site) as Hne.
        rewrite Heq in Hne. discriminate.
    - destruct (Fs.write_error f Seo.robotsPath); [discriminate|].
      intros _. cbn [final trace]. split; [reflexivity|]. split; [|split; auto].
      + exists (Seo.desired site). split; [apply content_with_file_same|reflexivity].
      + intros e He. apply in_or_app. left. auto. }
  destruct (Node.is_file f Seo.robotsPath) eqn:Hfile.
  - unfold Node.is_file in Hfile. unfold content in Hsettle.
    destruct (Node.lookup Seo.robotsPath (Node.files f)) as [c|] eqn:Hl; [|discriminate].
    destruct (Node.mem Seo.robotsPath (Node.unreadable f)); [discriminate|].
    apply Hsettle; [|now left].
    intros e He. apply in_or_app. left. apply in_or_app. now left.
  - apply Hsettle.
    + intros e He. apply in_or_app. now left.
    + now right.
Qed.

Lemma reconciled_trace (site : str) (f : Node.fs) (t : list Node.event) (e : Node.event) :
  In e t -> In e (trace (reconciled site f t)).
Proof.
  intros He. unfold reconciled.
  assert (H1 : In e (t ++ [Node.Probed Seo.robotsPath])) by (apply in_or_app; now left).
  assert (H2 : In e ((t ++ [Node.Probed Seo.robotsPath]) ++ [Node.ReadFile Seo.robotsPath]))
    by (apply in_or_app; now left).
  repeat match goal with
         | |- context [if ?b then _ else _] => destruct b
         | |- context [match ?x with inl _ => _ | inr _ => _ end] => destruct x
         | |- context [match ?x with Some _ => _ | None => _ end] => destruct x
         end; cbn [trace]; try assumption; apply in_or_app; now left.
Qed.

Lemma write_error_existing (f g : Node.fs) (p : str) :
  Fs.write_error f p = None ->
  Node.dirs g = Node.dirs f ->
  Node.unwritable g = Node.unwritable f ->
  Node.is_file g p = true ->
  Fs.write_error g p = None.
Proof.
  unfold Fs.write_error, Node.refuses_write, Node.is_dir.
  intros H Hd Hu Hf. rewrite Hd, Hu, Hf.
  destruct (JS.eqb p (js ".") || Node.mem p (Node.dirs f)); [discriminate|].
  destruct (negb _); [discriminate|].
  destruct (Node.mem p (Node.unwritable f)); [discriminate|]. reflexivity.
Qed.

Lemma walk_succeeds_with_file (f : Node.fs) (p c : str) :
  walk_succeeds f -> walk_succeeds (Fs.with_file f p c).
Proof.
  intros [found H]. pose proof (scan_with_file f p c) as Hs. rewrite H in Hs.
  unfold walk_succeeds.
  destruct (Fs.scan_result (Fs.with_file f p c) (js "public")); [contradiction|eauto].
Qed.

(** A disk on which the sitemap is current and the robots file agrees is
    left as it is by a run. *)
Lemma run_on_settled (env : process_env) (g : Node.fs) (c : str) :
  walk_succeeds g ->
  Fs.write_error g Seo.sitemapPath = None ->
  content g Seo.sitemapPath = Some (sitemap_document env g) ->
  content g Seo.robotsPath = Some c ->
  JS.trim c = JS.trim (Seo.desired (Seo.SITE_URL env)) ->
  stream_ok env g = true ->
  final (Seo.run env g) = g
  /\ ~ wrote Seo.robotsPath (trace (Seo.run env g))
  /\ In (Node.WroteFile Seo.sitemapPath (sitemap_document env g))
        (trace (Seo.run env g))
  /\ (Fs.read_result g Seo.robotsPath = inr c -> exit_code (Seo.run env g) = 0%Z).
Proof.
  intros [found Hscan] Hwrite Hmap Hrobots Htrim Hok.
  rewrite run_eq, Hscan, Hwrite, Hok, (with_file_same _ _ _ Hmap).
  destruct (reconciled_agreeing (Seo.SITE_URL env) g
              [Node.Scanned (js "public");
               Node.WroteFile Seo.sitemapPath (sitemap_document env g)] c
              Hrobots Htrim (not_wrote_robots_before _)) as [Hno Hfinal].
  split; [exact Hfinal|]. split; [exact Hno|]. split.
  - apply reconciled_trace. right. now left.
  - intros Hread. unfold reconciled.
    assert (Hfile : Node.is_file g Seo.robotsPath = true)
      by (apply is_file_content; eauto).
    rewrite Hfile, orb_true_r, Hread, Htrim, eqb_refl. reflexivity.
Qed.

Lemma stream_ok_with_file (env : process_env) (f : Node.fs) (p c : str) :
  Glob.selected Seo.GLOBS p = false ->
  stream_ok env (Fs.with_file f p c) = stream_ok env f.
Proof.
  intros Hp. unfold stream_ok. now rewrite entries_with_file.
Qed.

(** A run completes only if its stream ends well, and the disk it leaves
    gives the same stream. *)
Lemma run_completed_stream (env : process_env) (f : Node.fs) :
  exit_code (Seo.run env f) = 0%Z ->
  stream_ok env f = true /\ stream_ok env (final (Seo.run env f)) = true.
Proof.
  rewrite run_eq.
  destruct (Fs.scan_result f (js "public")); [discriminate|].
  destruct (Fs.write_error f Seo.sitemapPath); [discriminate|].
  destruct (stream_ok env f) eqn:Hok; [|discriminate].
  intros _. split; [reflexivity|].
  destruct (reconciled_cases (Seo.SITE_URL env)
              (Fs.with_file f Seo.sitemapPath (sitemap_document env f))
              [Node.Scanned (js "public");
               Node.WroteFile Seo.sitemapPath (sitemap_document env f)])
    as (_ & [-> | ->] & _);
    now rewrite !stream_ok_with_file by reflexivity.
Qed.

(** What a completed run leaves. *)
Lemma run_completed (env : process_env) (f : Node.fs) :
  exit_code (Seo.run env f) = 0%Z ->
  let g := final (Seo.run env f) in
  walk_succeeds g
  /\ Fs.write_error g Seo.sitemapPath = None
  /\ sitemap_document env g = sitemap_document env f
  /\ content g Seo.sitemapPath = Some (sitemap_document env f)
  /\ (exists c, content g Seo.robotsPath = Some c
                /\ JS.trim c = JS.trim (Seo.desired (Seo.SITE_URL env)))
  /\ Node.is_dir g Seo.robotsPath = false
  /\ Node.unreadable g = Node.unreadable f
  /\ In (Node.WroteFile Seo.sitemapPath (sitemap_document env f))
        (trace (Seo.run env f)).
Proof.
  rewrite run_eq.
  destruct (Fs.scan_result f (js "public")) as [e|found] eqn:Hscan; [discriminate|].
  destruct (Fs.write_error f Seo.sitemapPath) eqn:Hwrite; [discriminate|].
  destruct (stream_ok env f); [|discriminate].
  set (xml := sitemap_document env f).
  set (f1 := Fs.with_file f Seo.sitemapPath xml).
  intros Hexit. cbv zeta.
  destruct (reconciled_completed _ _ _ Hexit) as (Hdir & Hrobots & Hfinal & Htrace).
  assert (Hw1 : walk_succeeds f1) by (apply walk_succeeds_with_file; now exists found).
  assert (Hs1 : sitemap_document env f1 = xml)
    by (apply sitemap_document_with_file; reflexivity).
  assert (Hc1 : content f1 Seo.sitemapPath = Some xml) by apply content_with_file_same.
  assert (Hlast : In (Node.WroteFile Seo.sitemapPath xml)
                     [Node.Scanned (js "public"); Node.WroteFile Seo.sitemapPath xml])
    by (right; now left).
  destruct Hfinal as [Hfinal|Hfinal]; rewrite Hfinal in *.
  - repeat split; auto.
    eapply write_error_existing; [exact Hwrite|reflexivity|reflexivity|].
    apply is_file_content; eauto.
  - repeat split; auto.
    + now apply walk_succeeds_with_file.
    + eapply write_error_existing; [exact Hwrite|reflexivity|reflexivity|].
      apply is_file_content. exists xml.
      rewrite content_with_file_other; [exact Hc1|].
      intros H. symmetry in H. now apply sitemap_not_robots.
    + rewrite sitemap_document_with_file by reflexivity. exact Hs1.
    + rewrite content_with_file_other; [exact Hc1|].
      intros H. symmetry in H. now apply sitemap_not_robots.
Qed.

(** When the second walk reports the files in the order of the first, a
    second run on the disk that a completed run left writes the same bytes
    to the sitemap and nothing to the robots file, and leaves the disk as
    it found it; it completes too, as long as the robots file may be
    read. *)
Lemma rerun_same_walk (env : process_env) (f : Node.fs) :
  let o1 := Seo.run env f in
  let o2 := Seo.run env (final o1) in
  exit_code o1 = 0%Z ->
  In (Node.WroteFile Seo.sitemapPath (sitemap_document env f)) (trace o1)
  /\ In (Node.WroteFile Seo.sitemapPath (sitemap_document env f)) (trace o2)
  /\ content (final o1) Seo.sitemapPath = Some (sitemap_document env f)
  /\ content (final o2) Seo.sitemapPath = Some (sitemap_document env f)
  /\ ~ wrote Seo.robotsPath (trace o2)
  /\ final o2 = final o1
  /\ (Node.mem Seo.robotsPath (Node.unreadable f) = false -> exit_code o2 = 0%Z).
Proof.
  cbv zeta. intros Hexit.
  destruct (run_completed env f Hexit)
    as (Hwalk & Hwrite & Hdoc & Hmap & (c & Hrobots & Htrim) & Hdir & Hur & Hin).
  destruct (run_completed_stream env f Hexit) as [_ Hstream].
  rewrite <- Hdoc in Hmap.
  destruct (run_on_settled env _ c Hwalk Hwrite Hmap Hrobots Htrim Hstream)
    as (Hfinal & Hno & Hin2 & Hok).
  rewrite Hdoc in Hmap, Hin2.
  repeat split; try assumption.
  - now rewrite Hfinal.
  - intros Hread. apply Hok. unfold Fs.read_result.
    unfold content in Hrobots. now rewrite Hdir, Hrobots, Hur, Hread.
Qed.

(** *** Another walk of the same disk *)

Lemma walked_otherwise_reordered (f : Node.fs) : reordered f (walked_otherwise f).
Proof.
  unfold reordered, walked_otherwise. cbn [Node.dirs Node.unreadable Node.unwritable Node.files].
  repeat split.
  destruct (Node.files f) as [|a [|b [|c rest]]]; try apply Permutation_refl.
  apply perm_skip, perm_swap.
Qed.

(** C6: the sitemap follows the order of the walk, which the script does
    not fix.  After a first run on the site of the scenario, a second run
    whose walk reports the same files with the contact page before the
    services page completes, writes nothing to the robots file, and leaves
    a sitemap with the two entries in the other order: not the bytes of the
    first run. *)
Theorem rerun_not_byte_stable :
  let home := Sitemap.mkItem (js "/") (Some (js "weekly")) (Some 1) in
  let services := Sitemap.mkItem (js "/services/") (Some (js "weekly")) (Some (8 # 10)) in
  let contact := Sitemap.mkItem (js "/contact/") (Some (js "weekly")) (Some (9 # 10)) in
  let first := Sitemap.render (js "https://www.example.com") [home; services; contact] in
  let second := Sitemap.render (js "https://www.example.com") [home; contact; services] in
  let o1 := Seo.run example_env (example_disk None) in
  let o2 := Seo.run example_env (walked_otherwise (final o1)) in
  reordered (final o1) (walked_otherwise (final o1))
  /\ exit_code o1 = 0%Z
  /\ exit_code o2 = 0%Z
  /\ content (final o1) Seo.sitemapPath = Some first
  /\ content (final o2) Seo.sitemapPath = Some second
  /\ JS.eqb first second = false
  /\ trace o2 = [ Node.Scanned (js "public");
                  Node.WroteFile Seo.sitemapPath second;
                  Node.Probed Seo.robotsPath;
                  Node.ReadFile Seo.robotsPath ].
Proof.
  cbv zeta. split; [apply walked_otherwise_reordered|].
  repeat split; vm_compute; reflexivity.
Qed.

(* ================================================================== *)
(** ** The number of entries *)
(* ================================================================== *)





(** The run on that site: two HTML files, none of them named by the
    exclusion list, one entry. *)
Example not_found_directory_run :
  exit_code (Seo.run example_env not_found_directory_disk) = 0%Z
  /\ map is_html (listed not_found_directory_disk) = [true; true]
  /\ map excluded (listed not_found_directory_disk) = [false; false]
  /\ map pruned (listed not_found_directory_disk) = [false; true]
  /\ content (final (Seo.run example_env not_found_directory_disk)) Seo.sitemapPath
     = Some (Sitemap.render (js "https://www.example.com")
               [Sitemap.mkItem (js "/") (Some (js "weekly")) (Some 1)]).
Proof. repeat split; vm_compute; reflexivity. Qed.

(* ================================================================== *)
(** ** The configured origin and the end-to-end scenario *)
(* ================================================================== *)



(** A variable that is set to the empty string counts as not set. *)
Example empty_SITE_URL :
  Seo.SITE_URL (mkEnv (Some []) None) = js "https://www.gringo787.com".
Proof. reflexivity. Qed.

(** The earlier script chooses between two origins written in it. *)
Example legacy_hostname :
  LegacySeo.hostname (mkEnv (Some (js "https://www.example.com")) None)
  = js "http://localhost:5173"
  /\ LegacySeo.hostname (mkEnv None (Some (js "production")))
     = js "https://www.gringo787.com".
Proof. split; reflexivity. Qed.

(** C1: for the origin [https://www.example.com] and the five pages of the
    scenario the builder writes three entries: the home page with priority
    1.0, the services page with 0.8 and the contact page with 0.9; the
    robots directive is the three lines of the scenario, and a run on that
    site leaves exactly it, whether there was no robots file or a stale
    one. *)
Theorem end_to_end_scenario :
  entries example_pages
  = [ Sitemap.mkItem (js "/") (Some (js "weekly")) (Some 1);
      Sitemap.mkItem (js "/services/") (Some (js "weekly")) (Some (8 # 10));
      Sitemap.mkItem (js "/contact/") (Some (js "weekly")) (Some (9 # 10)) ]
  /\ listed (example_disk None) = example_pages
  /\ map (fun i => (Sitemap.loc (Seo.SITE_URL example_env) i,
                    Sitemap.optional Sitemap.toFixed1 (Sitemap.priority i)))
         (entries example_pages)
     = [ (js "https://www.example.com/", js "1.0");
         (js "https://www.example.com/services/", js "0.8");
         (js "https://www.example.com/contact/", js "0.9") ]
  /\ Seo.desired (Seo.SITE_URL example_env) = example_robots
  /\ exit_code (Seo.run example_env (example_disk None)) = 0%Z
  /\ content (final (Seo.run example_env (example_disk None))) Seo.sitemapPath
     = Some (Sitemap.render (js "https://www.example.com") (entries example_pages))
  /\ content (final (Seo.run example_env (example_disk None))) Seo.robotsPath
     = Some example_robots
  /\ content (final (Seo.run example_env (example_disk (Some stale_robots))))
             Seo.robotsPath
     = Some example_robots.
Proof.
  repeat split; vm_compute; reflexivity.
Qed.

(* ================================================================== *)
(** ** Failing runs *)
(* ================================================================== *)

Lemma legacy_run_eq (env : process_env) (f : Node.fs) :
  LegacySeo.run env f =
  match Fs.scan_result f (js "public") with
  | inl _ => mkOutcome 1 f []
  | inr found =>
      match Sitemap.stream (LegacySeo.hostname env)
              (map (fun u => Sitemap.mkItem u None None)
                   (LegacySeo.urls (filter (Glob.selected LegacySeo.patterns) found)))
      with
      | inl _ => mkOutcome 1 f [Node.Scanned (js "public")]
      | inr xml =>
          match Fs.write_error f (js "public/sitemap.xml") with
          | Some _ => mkOutcome 1 f [Node.Scanned (js "public")]
          | None => mkOutcome 0 (Fs.with_file f (js "public/sitemap.xml") xml)
                      [Node.Scanned (js "public");
                       Node.WroteFile (js "public/sitemap.xml") xml]
          end
      end
  end.
Proof.
  unfold LegacySeo.run, run_script, LegacySeo.main.
  unfold Fs.globby. change (filter _ LegacySeo.patterns) with [js "public/**/*.html"].
  cbv iota beta. change (Glob.base_directory (js "public/**/*.html")) with (js "public").
  io_unfold.
  unfold LegacySeo.streamToPromise.
  destruct (Fs.scan_result f (js "public")) as [e|found]; io_unfold; [reflexivity|].
  destruct (Sitemap.stream _ _) as [e|xml]; io_unfold; [reflexivity|].
  destruct (Fs.write_error f (js "public/sitemap.xml")) as [e|]; reflexivity.
Qed.

Lemma robots_run_eq (env : process_env) (f : Node.fs) :
  Robots.run env f =
  let t := [Node.Probed (js "public")] in
  let write g t :=
      match Fs.write_error g (js "public/robots.txt") with
      | Some _ => mkOutcome 1 g t
      | None => mkOutcome 0 (Fs.with_file g (js "public/robots.txt") (Robots.robotsContent env))
                  (t ++ [Node.WroteFile (js "public/robots.txt") (Robots.robotsContent env)])
      end in
  if Node.is_dir f (js "public") || Node.is_file f (js "public") then write f t
  else match Fs.mkdir_error f (js "public") with
       | Some _ => mkOutcome 1 f t
       | None => write (Fs.with_dir f (js "public")) (t ++ [Node.MadeDir (js "public")])
       end.
Proof.
  unfold Robots.run, run_script, Robots.main, Robots.publicDir. io_unfold.
  destruct (Node.is_dir f (js "public") || Node.is_file f (js "public"));
    cbn [negb]; io_unfold.
  - destruct (Fs.write_error f (js "public/robots.txt")); reflexivity.
  - destruct (Fs.mkdir_error f (js "public")); io_unfold; [reflexivity|].
    destruct (Fs.write_error _ (js "public/robots.txt")); reflexivity.
Qed.

Lemma no_root_no_sitemap (f : Node.fs) :
  Node.is_dir f (js "public") = false ->
  Fs.scan_result f (js "public") = inr []
  /\ exists e, Fs.write_error f Seo.sitemapPath = Some e.
Proof.
  intros H. split.
  - unfold Fs.scan_result. now rewrite H.
  - unfold Fs.write_error.
    change (Node.dirname Seo.sitemapPath) with (js "public"). rewrite H.
    destruct (Node.is_dir f Seo.sitemapPath); eexists; reflexivity.
Qed.

(** C9, as the code has it.  The sitemap builder, in both its generations,
    ends with exit code 1 and has done nothing after the failing call when
    the output root is missing, when the walk is refused, or when the write
    of the sitemap is refused; so does the current one when the write of
    the robots file is refused, the sitemap being written by then (or left
    empty, when the stream failed before).  No run
    of it makes a directory.  [scripts/robots.js] makes a missing output
    root and then writes the robots file; it ends with exit code 1 when
    that write is refused. *)
Theorem build_failures (env : process_env) (f : Node.fs) :
  (Node.is_dir f (js "public") = false ->
   Seo.run env f = mkOutcome 1 f [Node.Scanned (js "public")]
   /\ LegacySeo.run env f = mkOutcome 1 f [Node.Scanned (js "public")])
  /\ (forall e, Fs.scan_result f (js "public") = inl e ->
                Seo.run env f = mkOutcome 1 f []
                /\ LegacySeo.run env f = mkOutcome 1 f [])
  /\ (forall e, walk_succeeds f ->
                Fs.write_error f Seo.sitemapPath = Some e ->
                Seo.run env f = mkOutcome 1 f [Node.Scanned (js "public")]
                /\ LegacySeo.run env f = mkOutcome 1 f [Node.Scanned (js "public")])
  /\ (forall e, walk_succeeds f ->
                Fs.write_error f Seo.sitemapPath = None ->
                Fs.write_error (Fs.with_file f Seo.sitemapPath (sitemap_document env f))
                               Seo.robotsPath = Some e ->
                (forall c, content f Seo.robotsPath = Some c ->
                           JS.trim c <> JS.trim (Seo.desired (Seo.SITE_URL env))) ->
                exit_code (Seo.run env f) = 1%Z
                /\ final (Seo.run env f)
                   = Fs.with_file f Seo.sitemapPath
                       (if stream_ok env f then sitemap_document env f else [])
                /\ ~ wrote Seo.robotsPath (trace (Seo.run env f)))
  /\ ~ made_dir (trace (Seo.run env f))
  /\ Node.dirs (final (Seo.run env f)) = Node.dirs f
  /\ ~ made_dir (trace (LegacySeo.run env f))
  /\ Node.dirs (final (LegacySeo.run env f)) = Node.dirs f
  /\ (Node.is_dir f (js "public") = false ->
      Fs.mkdir_error f (js "public") = None ->
      Fs.write_error (Fs.with_dir f (js "public")) (js "public/robots.txt") = None ->
      Robots.run env f
      = mkOutcome 0
          (Fs.with_file (Fs.with_dir f (js "public")) (js "public/robots.txt")
                        (Robots.robotsContent env))
          [Node.Probed (js "public"); Node.MadeDir (js "public");
           Node.WroteFile (js "public/robots.txt") (Robots.robotsContent env)])
  /\ (forall e, Node.is_dir f (js "public") = true ->
                Fs.write_error f (js "public/robots.txt") = Some e ->
                Robots.run env f = mkOutcome 1 f [Node.Probed (js "public")]).
Proof.
  rewrite run_eq, legacy_run_eq.
  split; [|split; [|split; [|split; [|split; [|split; [|split; [|split; [|split]]]]]]]].
  - intros Hroot. destruct (no_root_no_sitemap f Hroot) as [Hscan [e Hw]].
    change (js "public/sitemap.xml") with Seo.sitemapPath.
    rewrite Hscan, Hw. split; [reflexivity|].
    destruct (Sitemap.stream _ _); reflexivity.
  - intros e Hscan. rewrite Hscan. now split.
  - intros e [found Hscan] Hw.
    change (js "public/sitemap.xml") with Seo.sitemapPath.
    rewrite Hscan, Hw. split; [reflexivity|].
    destruct (Sitemap.stream _ _); reflexivity.
  - intros e [found Hscan] Hw Hrobots Hdiff. rewrite Hscan, Hw.
    destruct (stream_ok env f).
    2:{ cbn [exit_code final trace]. split; [reflexivity|]. split; [reflexivity|].
        apply not_wrote_robots_before. }
    set (f1 := Fs.with_file f Seo.sitemapPath (sitemap_document env f)) in *.
    assert (Hdiff1 : forall c, content f1 Seo.robotsPath = Some c ->
                               JS.eqb (JS.trim c) (JS.trim (Seo.desired (Seo.SITE_URL env)))
                               = false).
    { intros c Hc. apply eqb_neq, Hdiff.
      unfold f1 in Hc.
      now rewrite content_with_file_other in Hc by apply sitemap_not_robots. }
    destruct (not_wrote_probe_read Seo.robotsPath Seo.robotsPath Seo.robotsPath)
      as [Hp Hr].
    pose proof (not_wrote_robots_before (sitemap_document env f)) as Hb.
    unfold reconciled.
    destruct (Node.is_dir f1 Seo.robotsPath || Node.is_file f1 Seo.robotsPath).
    + destruct (Fs.read_result f1 Seo.robotsPath) as [e'|current] eqn:Hread.
      * cbn [exit_code final trace]. rewrite wrote_app. tauto.
      * apply read_result_content, Hdiff1 in Hread. rewrite Hread, Hrobots.
        cbn [negb exit_code final trace]. rewrite !wrote_app. tauto.
    + rewrite empty_differs_from_desired, Hrobots.
      cbn [exit_code final trace]. rewrite wrote_app. tauto.
  - destruct (Fs.scan_result f (js "public")); [intros [p []]|].
    destruct (Fs.write_error f Seo.sitemapPath);
      [intros [p [H|[]]]; discriminate|].
    destruct (stream_ok env f);
      [|intros [p H]; cbn [trace In] in H; intuition discriminate].
    intros [p H]. revert H. unfold reconciled.
    repeat match goal with
           | |- context [if ?b then _ else _] => destruct b
           | |- context [match ?x with inl _ => _ | inr _ => _ end] => destruct x
           | |- context [match ?x with Some _ => _ | None => _ end] => destruct x
           end; cbn [trace app In]; intuition discriminate.
  - destruct (Fs.scan_result f (js "public")); [reflexivity|].
    destruct (Fs.write_error f Seo.sitemapPath); [reflexivity|].
    destruct (stream_ok env f); [|reflexivity].
    unfold reconciled.
    repeat match goal with
           | |- context [if ?b then _ else _] => destruct b
           | |- context [match ?x with inl _ => _ | inr _ => _ end] => destruct x
           | |- context [match ?x with Some _ => _ | None => _ end] => destruct x
           end; reflexivity.
  - destruct (Fs.scan_result f (js "public")); [intros [p []]|].
    destruct (Sitemap.stream _ _);
      [intros [p H]; cbn [trace In] in H; intuition discriminate|].
    destruct (Fs.write_error f (js "public/sitemap.xml"));
      intros [p H]; cbn [trace In] in H; intuition discriminate.
  - destruct (Fs.scan_result f (js "public")); [reflexivity|].
    destruct (Sitemap.stream _ _); [reflexivity|].
    destruct (Fs.write_error f (js "public/sitemap.xml")); reflexivity.
  - intros Hroot Hmk Hw. rewrite robots_run_eq. cbv zeta.
    assert (Hfile : Node.is_file f (js "public") = false).
    { unfold Fs.mkdir_error in Hmk. rewrite Hroot in Hmk. cbn [orb] in Hmk.
      destruct (Node.is_file f (js "public")); [discriminate|reflexivity]. }
    now rewrite Hroot, Hfile, Hmk, Hw.
  - intros e Hroot Hw. rewrite robots_run_eq. cbv zeta.
    now rewrite Hroot, Hw.
Qed.

Lemma build_failures_witness :
  Seo.run example_env empty_disk
  = mkOutcome 1 empty_disk [Node.Scanned (js "public")]
  /\ Seo.run example_env unreadable_root_disk
     = mkOutcome 1 unreadable_root_disk []
  /\ LegacySeo.run example_env (unwritable_disk Seo.sitemapPath)
     = mkOutcome 1 (unwritable_disk Seo.sitemapPath) [Node.Scanned (js "public")]
  /\ exit_code (Seo.run example_env (unwritable_disk Seo.robotsPath)) = 1%Z
  /\ exit_code (Robots.run example_env empty_disk) = 0%Z.
Proof.
  pose proof (build_failures example_env empty_disk)
    as (Hroot & _ & _ & _ & _ & _ & _ & _ & Hrobots & _).
  pose proof (build_failures example_env unreadable_root_disk)
    as (_ & Hwalk & _).
  pose proof (build_failures example_env (unwritable_disk Seo.sitemapPath))
    as (_ & _ & Hsitemap & _).
  pose proof (build_failures example_env (unwritable_disk Seo.robotsPath))
    as (_ & _ & _ & Hlast & _).
  split; [|split; [|split; [|split]]].
  - apply Hroot. reflexivity.
  - apply (Hwalk Node.EACCES). reflexivity.
  - apply (Hsitemap Node.EACCES).
    + eexists. reflexivity.
    + reflexivity.
  - apply (Hlast Node.EACCES).
    + eexists. reflexivity.
    + reflexivity.
    + reflexivity.
    + intros c Hc. discriminate Hc.
  - rewrite Hrobots; reflexivity.
Defined.

(** C9 as the specification states it fails for [scripts/robots.js]: on a
    disk without the output root it makes the directory, writes the robots
    file and ends with exit code 0. *)
Lemma robots_script_makes_root :
  ~ fails_without_root (Robots.run example_env) empty_disk.
Proof.
  intros H. destruct (H eq_refl) as [Hexit _]. apply Hexit. reflexivity.
Qed.

Example robots_script_on_empty_disk :
  Robots.run example_env empty_disk
  = mkOutcome 0
      (Node.mkFs [js "public"]
                 [(js "public/robots.txt", Robots.robotsContent example_env)] [] [])
      [Node.Probed (js "public"); Node.MadeDir (js "public");
       Node.WroteFile (js "public/robots.txt") (Robots.robotsContent example_env)].
Proof. reflexivity. Qed.

(** [scripts/robots.js] writes its directive whatever the file holds. *)
Example robots_script_always_writes :
  trace (Robots.run example_env
           (Node.mkFs [js "public"]
              [(js "public/robots.txt", Robots.robotsContent example_env)] [] []))
  = [Node.Probed (js "public");
     Node.WroteFile (js "public/robots.txt") (Robots.robotsContent example_env)].
Proof. reflexivity. Qed.

(* ================================================================== *)
(** ** The build validator *)
(* ================================================================== *)

Section Validator.
Import ValidateBuild.

Lemma path_eqb_eq (p q : path) : path_eqb p q = true <-> p = q.
Proof.
  revert q; induction p as [|a p IH]; intros [|b q]; simpl;
    try (split; [discriminate|discriminate]); [tauto|].
  rewrite andb_true_iff, eqb_eq, IH. split.
  - now intros [-> ->].
  - now intros [= -> ->].
Qed.

Lemma find_entry_in (p : path) (n : node) (l : list (path * node)) :
  NoDup (map fst l) -> In (p, n) l -> find_entry p l = Some n.
Proof.
  induction l as [|[q m] l IH]; simpl; [contradiction|].
  intros Hnd Hin. inversion Hnd as [|? ? Hq Hnd']; subst.
  destruct Hin as [[= -> ->]|Hin].
  - now rewrite (proj2 (path_eqb_eq p p) eq_refl).
  - destruct (path_eqb q p) eqn:E.
    + apply path_eqb_eq in E. subst q. exfalso. apply Hq.
      apply (in_map fst) in Hin. exact Hin.
    + now apply IH.
Qed.

Lemma find_entry_some (p : path) (n : node) (l : list (path * node)) :
  find_entry p l = Some n -> In (p, n) l.
Proof.
  induction l as [|[q m] l IH]; simpl; [discriminate|].
  destruct (path_eqb q p) eqn:E.
  - apply path_eqb_eq in E. subst q. intros [= ->]. now left.
  - intros H. right. now apply IH.
Qed.

Lemma children_in (dir : path) (l : list (path * node)) (name : str) (n : node) :
  In (name, n) (children dir l) <-> In (dir ++ [name], n) l.
Proof.
  induction l as [|[q m] l IH]; simpl; [tauto|].
  unfold child_of. cbn [fst snd].
  destruct (rev q) as [|last parent] eqn:Hrev.
  - rewrite IH. split; [auto|]. intros [[= Hq _]|H]; [|assumption].
    apply (f_equal (@rev str)) in Hq. rewrite Hrev, rev_app_distr in Hq.
    discriminate.
  - assert (Hq : q = rev parent ++ [last]).
    { apply (f_equal (@rev str)) in Hrev. rewrite rev_involutive in Hrev.
      exact Hrev. }
    destruct (path_eqb (rev parent) dir) eqn:E.
    + apply path_eqb_eq in E. simpl. rewrite IH, Hq, E. split.
      * intros [[= -> ->]|H]; auto.
      * intros [[= H1 ->]|H]; auto.
        apply app_inj_tail in H1 as [_ ->]. auto.
    + rewrite IH. split; [auto|]. intros [[= H1 _]|H]; [|assumption].
      rewrite Hq in H1. apply app_inj_tail in H1 as [H1 _].
      apply path_eqb_eq in H1. congruence.
Qed.

(** The inner loop reads nothing but the disk, and ends with an empty list
    exactly when no link is unresolved. *)
Lemma check_links_spec (t : tree) (file : path) (ls : list (option str))
      (lg : list Node.event) :
  exists r lg',
    check_links (distDir t) file ls (Node.mkWorld t lg)
    = (inr r, Node.mkWorld t (lg ++ lg'))
    /\ Forall read_only lg'
    /\ (r = [] <-> existsb (unresolved t) ls = false).
Proof.
  revert lg; induction ls as [|[[|c l]|] ls IH]; intros lg.
  - exists [], []. rewrite app_nil_r. repeat split; constructor.
  - destruct (IH lg) as (r & lg' & H1 & H2 & H3). now exists r, lg'.
  - cbn [check_links]. unfold existsSync. io_unfold.
    destruct (IH (lg ++ [Node.Probed (show (fst (assetPath (distDir t) (c :: l))))]))
      as (r & lg' & H1 & H2 & H3).
    rewrite H1. io_unfold.
    eexists. exists (Node.Probed (show (fst (assetPath (distDir t) (c :: l)))) :: lg').
    rewrite <- app_assoc. split; [reflexivity|]. split.
    + constructor; [exact I|assumption].
    + cbn [existsb unresolved].
      destruct (present t (assetPath (distDir t) (c :: l))); cbn [negb orb].
      * exact H3.
      * split; discriminate.
  - destruct (IH lg) as (r & lg' & H1 & H2 & H3). now exists r, lg'.
Qed.

Lemma check_files_spec (t : tree) (files : list path) (lg : list Node.event) :
  (forall file, In file files -> exists doc, node_at t file = Some (File doc)) ->
  exists r lg',
    check_files (distDir t) files (Node.mkWorld t lg)
    = (inr r, Node.mkWorld t (lg ++ lg'))
    /\ Forall read_only lg'
    /\ ((r = [] /\ all_resolved t files)
        \/ (r <> []
            /\ exists file doc,
                In file files /\ node_at t file = Some (File doc)
                /\ existsb (unresolved t) (links doc) = true)).
Proof.
  revert lg; induction files as [|file files IH]; intros lg Hfiles.
  - exists [], []. rewrite app_nil_r.
    split; [reflexivity|]. split; [constructor|].
    left. split; [reflexivity|intros file doc []].
  - destruct (Hfiles file (or_introl eq_refl)) as [doc Hdoc].
    cbn [check_files]. unfold readFileSync. io_unfold. rewrite Hdoc. io_unfold.
    destruct (check_links_spec t file (links doc) (lg ++ [Node.ReadFile (show file)]))
      as (r1 & lg1 & H1 & H2 & H3).
    rewrite H1.
    destruct (IH ((lg ++ [Node.ReadFile (show file)]) ++ lg1))
      as (r2 & lg2 & H4 & H5 & H6).
    { intros f Hf. apply Hfiles. now right. }
    rewrite H4.
    exists (r1 ++ r2), (Node.ReadFile (show file) :: lg1 ++ lg2).
    split; [|split].
    + f_equal. f_equal. rewrite <- !app_assoc. reflexivity.
    + constructor; [exact I|]. apply Forall_app. now split.
    + destruct (existsb (unresolved t) (links doc)) eqn:Hhere.
      * right. split.
        -- intros Hnil. apply app_eq_nil in Hnil as [Hr1 _].
           apply H3 in Hr1. discriminate.
        -- exists file, doc. split; [now left|now split].
      * assert (r1 = []) as -> by now apply H3.
        destruct H6 as [[-> Hall]|[Hne (f & d & Hf & Hd & Hu)]].
        -- left. split; [reflexivity|].
           intros f d [<-|Hf] Hd.
           ++ rewrite Hdoc in Hd. now injection Hd as <-.
           ++ now apply (Hall f d).
        -- right. split; [exact Hne|].
           exists f, d. split; [now right|now split].
Qed.

Lemma node_at_below (t : tree) (dir : path) (name : str) :
  node_at t (dir ++ [name]) = find_entry (dir ++ [name]) (entries t).
Proof.
  unfold node_at. destruct (dir ++ [name]) eqn:E; [|reflexivity].
  now apply app_eq_nil in E as [_ E].
Qed.

Lemma html_file_in (t : tree) (file : path) :
  NoDup (map fst (entries t)) ->
  In file (htmlFiles (distDir t) (children (distDir t) (entries t))) <->
  exists name doc,
    file = distDir t ++ [name]
    /\ node_at t file = Some (File doc)
    /\ JS.endsWith name (js ".html") = true.
Proof.
  intros Hnd. unfold htmlFiles. rewrite in_map_iff. split.
  - intros [[name n] [<- Hin]]. apply filter_In in Hin as [Hin Hf].
    cbn [fst snd] in *. apply andb_true_iff in Hf as [Hfile Hhtml].
    destruct n as [|doc]; [discriminate|].
    exists name, doc. split; [reflexivity|]. split; [|exact Hhtml].
    rewrite node_at_below. apply find_entry_in; [exact Hnd|].
    now apply children_in.
  - intros (name & doc & -> & Hnode & Hhtml).
    exists (name, File doc). split; [reflexivity|].
    apply filter_In. split.
    + apply children_in. apply find_entry_some. now rewrite <- node_at_below.
    + cbn [fst snd isFile]. exact Hhtml.
Qed.

End Validator.

(** C10, as the code has it.  The validator ends with exit code 1 when
    [dist] is not a directory, or when a top-level [.html] file of [dist]
    has a non-empty stylesheet [href] or script [src] at whose path -- the
    reference cut at its first [?], without one leading slash, joined onto
    [dist] and normalised -- there is neither a file nor a directory; it
    ends with exit code 0 otherwise; and it changes nothing on the disk. *)
Theorem validator_exit (t : ValidateBuild.tree) :
  NoDup (map fst (ValidateBuild.entries t)) ->
  let dist := ValidateBuild.distDir t in
  let o := ValidateBuild.run t in
  (exit_code o = 0%Z \/ exit_code o = 1%Z)
  /\ (exit_code o <> 0%Z
      <-> ValidateBuild.node_at t dist <> Some ValidateBuild.Directory
          \/ exists name doc link,
              ValidateBuild.node_at t (dist ++ [name])
              = Some (ValidateBuild.File doc)
              /\ JS.endsWith name (js ".html") = true
              /\ In (Some link) (ValidateBuild.links doc)
              /\ link <> []
              /\ ValidateBuild.present t (ValidateBuild.assetPath dist link) = false)
  /\ final o = t
  /\ Forall read_only (trace o).
Proof.
  intros Hnd. cbv zeta.
  unfold ValidateBuild.run, run_script, ValidateBuild.main,
    ValidateBuild.existsSync, ValidateBuild.readdirSync.
  io_unfold. unfold ValidateBuild.present. cbn [fst snd].
  destruct (ValidateBuild.node_at t (ValidateBuild.distDir t)) as [[|d]|] eqn:Hdist;
    cbn [negb]; io_unfold; rewrite ?Hdist; io_unfold.
  - (* [dist] is a directory *)
    destruct (check_files_spec t
                (ValidateBuild.htmlFiles (ValidateBuild.distDir t)
                   (ValidateBuild.children (ValidateBuild.distDir t)
                      (ValidateBuild.entries t)))
                ([Node.Probed (ValidateBuild.show (ValidateBuild.distDir t))]
                 ++ [Node.Scanned (ValidateBuild.show (ValidateBuild.distDir t))]))
      as (r & lg & Hrun & Hro & Hr).
    { intros file Hfile. apply (html_file_in t file Hnd) in Hfile
        as (name & doc & _ & Hnode & _). eauto. }
    cbn [app] in Hrun. rewrite Hrun.
    assert (Hlog : Forall read_only
                     (Node.Probed (ValidateBuild.show (ValidateBuild.distDir t))
                      :: Node.Scanned (ValidateBuild.show (ValidateBuild.distDir t))
                      :: lg))
      by (repeat constructor; assumption).
    destruct Hr as [[-> Hall]|[Hne (file & doc & Hfile & Hnode & Hun)]].
    + io_unfold. cbn [exit_code final trace].
      split; [now left|]. split; [|split; [reflexivity|exact Hlog]].
      split; [intros H; now elim H|].
      intros [H|(name & doc & link & Hnode & Hhtml & Hin & Hlink & Hmiss)];
        [now elim H|].
      exfalso.
      assert (Hfile : In (ValidateBuild.distDir t ++ [name])
                         (ValidateBuild.htmlFiles (ValidateBuild.distDir t)
                            (ValidateBuild.children (ValidateBuild.distDir t)
                               (ValidateBuild.entries t))))
        by (apply (html_file_in t _ Hnd); eauto).
      pose proof (Hall _ _ Hfile Hnode) as Hnone.
      assert (Hsome : existsb (unresolved t) (ValidateBuild.links doc) = true).
      { apply existsb_exists. exists (Some link). split; [exact Hin|].
        destruct link as [|c l]; [now elim Hlink|].
        cbn [unresolved]. unfold ValidateBuild.present. now rewrite Hmiss. }
      congruence.
    + destruct r as [|m r]; [now elim Hne|].
      io_unfold. cbn [exit_code final trace].
      split; [now right|]. split; [|split; [reflexivity|exact Hlog]].
      split; [|discriminate]. intros _. right.
      apply (html_file_in t file Hnd) in Hfile as (name & doc' & -> & Hnode' & Hhtml).
      rewrite Hnode in Hnode'. injection Hnode' as <-.
      apply existsb_exists in Hun as [[[|c l]|] [Hin Hun]]; try discriminate.
      exists name, doc, (c :: l). repeat split; try assumption; try discriminate.
      cbn [unresolved] in Hun. now apply negb_true_iff in Hun.
  - (* [dist] is a file: reading it as a directory throws *)
    cbn [exit_code final trace].
    split; [now right|]. split; [|split; [reflexivity|repeat constructor]].
    split; [|discriminate]. intros _. left. discriminate.
  - (* [dist] is missing *)
    cbn [exit_code final trace].
    split; [now right|]. split; [|split; [reflexivity|repeat constructor]].
    split; [|discriminate]. intros _. left. discriminate.
Qed.

Lemma validator_exit_witness :
  exit_code (ValidateBuild.run linked_build) = 0%Z
  /\ exit_code (ValidateBuild.run broken_build) <> 0%Z
  /\ final (ValidateBuild.run broken_build) = broken_build.
Proof.
  assert (Hnd1 : NoDup (map fst (ValidateBuild.entries linked_build))).
  { repeat constructor; cbn [In map fst ValidateBuild.entries linked_build];
      intuition discriminate. }
  assert (Hnd2 : NoDup (map fst (ValidateBuild.entries broken_build))).
  { repeat constructor; cbn [In map fst ValidateBuild.entries broken_build];
      intuition discriminate. }
  destruct (validator_exit linked_build Hnd1) as (H1 & _).
  destruct (validator_exit broken_build Hnd2) as (_ & H2 & H3 & _).
  split; [|split].
  - destruct H1 as [H1|H1]; [exact H1|discriminate H1].
  - apply H2. right.
    exists (js "index.html"), (ValidateBuild.mkDoc [Some (js "/styles.css?v=3")] []),
      (js "/styles.css?v=3").
    repeat split; try reflexivity; [now left|discriminate].
  - exact H3.
Defined.

(** C10 as stated fails: a reference to a directory of [dist], or to a file
    beside [dist], passes the check. *)
Lemma validator_rule_fails : ~ validator_rule linked_build.
Proof.
  intros [[_ H] _].
  apply H; [|reflexivity].
  right. exists (js "index.html"),
    (ValidateBuild.mkDoc [Some (js "/styles.css?v=3")]
                         [js "/assets"; js "../vendor.js"]),
    (js "/assets").
  repeat split; try reflexivity. right. now left.
Qed.

Example linked_build_passes :
  exit_code (ValidateBuild.run linked_build) = 0%Z
  /\ file_under_dist linked_build (js "/assets") = false
  /\ file_under_dist linked_build (js "../vendor.js") = false
  /\ file_under_dist linked_build (js "/styles.css?v=3") = true.
Proof. repeat split. Qed.

(* ================================================================== *)
(** ** The mobile navigation *)
(* ================================================================== *)

Lemma contains_toggle (c : str) (l : list str) :
  Nav.contains c (Nav.toggle c l) = negb (Nav.contains c l).
Proof.
  unfold Nav.toggle. destruct (Nav.contains c l) eqn:E; cbn [negb].
  - unfold Nav.contains.
    destruct (existsb (JS.eqb c) (filter (fun x => negb (JS.eqb x c)) l)) eqn:F;
      [|reflexivity].
    apply existsb_exists in F as (x & Hx & Hcx).
    apply filter_In in Hx as [_ Hx]. apply eqb_eq in Hcx. subst x.
    now rewrite eqb_refl in Hx.
  - unfold Nav.contains. rewrite existsb_app. cbn [existsb].
    rewrite eqb_refl. now rewrite orb_true_r.
Qed.

Lemma contains_toggle_other (c d : str) (l : list str) :
  c <> d -> Nav.contains d (Nav.toggle c l) = Nav.contains d l.
Proof.
  intros Hcd. unfold Nav.toggle, Nav.contains.
  destruct (existsb (JS.eqb c) l).
  - induction l as [|x l IH]; [reflexivity|]. cbn [filter].
    destruct (JS.eqb x c) eqn:E; cbn [negb existsb].
    + apply eqb_eq in E. subst x.
      assert (JS.eqb d c = false) as -> by (apply eqb_neq; congruence).
      exact IH.
    + now rewrite IH.
  - rewrite existsb_app. cbn [existsb].
    assert (JS.eqb d c = false) as -> by (apply eqb_neq; congruence).
    now rewrite !orb_false_r.
Qed.

Lemma expanded_String_of_bool (b : bool) (cl : list str) :
  Nav.expanded (Nav.mkElement (Some (Nav.String_of_bool b)) cl) = b.
Proof. now destruct b. Qed.

Lemma click_in_sync (p : Nav.page) : Nav.in_sync p -> Nav.in_sync (Nav.click p).
Proof.
  destruct p as [[h|] [m|]]; try exact (fun H => H).
  unfold Nav.in_sync, Nav.click.
  cbn [Nav.hamburger Nav.mobileMenu Nav.on_click fst snd Nav.classes].
  intros H. rewrite expanded_String_of_bool, contains_toggle, H. reflexivity.
Qed.

(** Once the button and the menu agree, they agree after any number of
    clicks. *)
Theorem nav_stays_in_sync (p : Nav.page) (n : nat) :
  Nav.in_sync p -> Nav.in_sync (Nat.iter n Nav.click p).
Proof.
  intros H. induction n as [|n IH]; [exact H|].
  cbn [Nat.iter nat_rect]. now apply click_in_sync.
Qed.

Lemma nav_stays_in_sync_witness :
  Nav.in_sync (Nat.iter 3 Nav.click Nav.closed_page).
Proof.
  apply (nav_stays_in_sync Nav.closed_page 3). reflexivity.
Defined.

(** A click flips the menu and sets [aria-expanded] to [true] or [false];
    two clicks bring back every class of the menu and leave [aria-expanded]
    at [true] if it was [true] and at [false] otherwise. *)
Theorem nav_click_twice (h m : Nav.element) :
  let p := Nav.mkPage (Some h) (Some m) in
  (exists h1 m1,
      Nav.click p = Nav.mkPage (Some h1) (Some m1)
      /\ Nav.aria_expanded h1 = Some (Nav.String_of_bool (negb (Nav.expanded h)))
      /\ Nav.contains (js "hidden") (Nav.classes m1)
         = negb (Nav.contains (js "hidden") (Nav.classes m)))
  /\ (exists h2 m2,
         Nav.click (Nav.click p) = Nav.mkPage (Some h2) (Some m2)
         /\ Nav.aria_expanded h2 = Some (Nav.String_of_bool (Nav.expanded h))
         /\ Nav.classes h2 = Nav.classes h
         /\ Nav.aria_expanded m2 = Nav.aria_expanded m
         /\ forall c, Nav.contains c (Nav.classes m2) = Nav.contains c (Nav.classes m)).
Proof.
  cbv zeta. split.
  - eexists. eexists. split; [reflexivity|]. split; [reflexivity|].
    cbn [Nav.on_click snd Nav.classes]. apply contains_toggle.
  - eexists. eexists. split; [reflexivity|].
    cbn [Nav.on_click fst snd Nav.classes Nav.aria_expanded].
    split; [|split; [reflexivity|split; [reflexivity|]]].
    + now rewrite expanded_String_of_bool, negb_involutive.
    + intros c. destruct (JS.eqb c (js "hidden")) eqn:E.
      * apply eqb_eq in E. subst c.
        now rewrite !contains_toggle, negb_involutive.
      * apply eqb_neq in E.
        rewrite !contains_toggle_other by congruence. reflexivity.
Qed.

(** Two clicks keep the classes of the menu but not their order: [hidden]
    comes back at the end. *)
Example nav_hidden_moves_last :
  Nav.click (Nav.click Nav.closed_page)
  = Nav.mkPage (Some (Nav.mkElement (Some (js "false")) [js "md:hidden"]))
               (Some (Nav.mkElement None [js "px-4"; js "hidden"])).
Proof. reflexivity. Qed.

(* ================================================================== *)
(** ** More on the sitemap builder *)
(* ================================================================== *)

(** Where [replace] acts, when the pattern occurs. *)
Lemma replace_occurrence (s pat rep : str) :
  JS.includes s pat = true ->
  exists a b, s = a ++ pat ++ b /\ JS.replace s pat rep = a ++ rep ++ b.
Proof.
  induction s as [|c s IH]; intros H.
  - cbn [JS.includes] in H. rewrite orb_false_r in H.
    exists [], (skipn (length pat) []). split.
    + now apply startsWith_skipn.
    + now apply replace_here.
  - destruct (JS.startsWith (c :: s) pat) eqn:Hs.
    + exists [], (skipn (length pat) (c :: s)). split.
      * now apply startsWith_skipn.
      * now apply replace_here.
    + cbn [JS.includes] in H. rewrite Hs in H. cbn [orb] in H.
      destruct (IH H) as (a & b & Hab & Hr).
      exists (c :: a), b. split.
      * cbn [app]. now rewrite <- Hab.
      * cbn [JS.replace]. rewrite Hs. cbn [app]. now rewrite Hr.
Qed.

Lemma endsWith_includes (s p : str) :
  JS.endsWith s p = true -> JS.includes s p = true.
Proof.
  intros H. apply endsWith_spec in H as [pre ->].
  apply includes_spec. exists pre, []. now rewrite app_nil_r.
Qed.

Lemma normalized_home (url : str) :
  Seo.normalized url = js "/" <-> url = js "/" \/ url = js "/index.html".
Proof.
  split.
  - unfold Seo.normalized.
    destruct (JS.endsWith url (js "/index.html")) eqn:Hend; [|now left].
    intros Hn. right.
    destruct (replace_occurrence url (js "/index.html") (js "/")
                (endsWith_includes _ _ Hend)) as (a & b & Hu & Hr).
    rewrite Hr in Hn.
    destruct a as [|x a].
    + cbn [app] in Hn. injection Hn as ->. subst url. reflexivity.
    + cbn [app] in Hn. injection Hn as _ Hn. now destruct a.
  - intros [->| ->]; reflexivity.
Qed.

Lemma priority_one (p : str) : Seo.priority p = 1 <-> p = js "/".
Proof.
  unfold Seo.priority. split.
  - destruct (JS.eqb p (js "/")) eqn:E; [intros _; now apply eqb_eq|].
    destruct (_ || _); [discriminate|].
    destruct (_ || _); discriminate.
  - intros ->. reflexivity.
Qed.

(** Priority 1.0 goes to the root index page and to nothing else: an entry
    has it exactly when its path, the output root removed, is [/] or
    [/index.html]. *)
Theorem home_priority (url : str) :
  Sitemap.priority (Seo.link url) = Some 1
  <-> url = js "/" \/ url = js "/index.html".
Proof.
  rewrite <- normalized_home, <- priority_one. cbn [Seo.link Sitemap.priority].
  split; [now intros [= H]|now intros ->].
Qed.

(** *** Excluded pages, by URL *)

Lemma split_app_sep (s t : str) (sep : N) :
  JS.split (s ++ sep :: t) sep = JS.split s sep ++ JS.split t sep.
Proof.
  induction s as [|c s IH]; cbn [app JS.split].
  - now rewrite N.eqb_refl.
  - rewrite IH. destruct (N.eqb c sep); [reflexivity|].
    pose proof (split_not_nil s sep) as Hne.
    destruct (JS.split s sep); [contradiction|reflexivity].
Qed.

Lemma join_cons (a : str) (names : list str) (sep : str) :
  names <> [] -> JS.join (a :: names) sep = a ++ sep ++ JS.join names sep.
Proof. destruct names; [contradiction|reflexivity]. Qed.

Lemma join_last (init : list str) (l sep : str) :
  exists pre, JS.join (init ++ [l]) sep = pre ++ l.
Proof.
  induction init as [|x init [pre IH]].
  - now exists [].
  - exists (x ++ sep ++ pre).
    change (JS.join ((x :: init) ++ [l]) sep)
      with (JS.join (x :: init ++ [l]) sep).
    destruct (init ++ [l]) as [|y rest] eqn:E.
    + now destruct init.
    + change (JS.join (x :: y :: rest) sep) with (x ++ sep ++ JS.join (y :: rest) sep).
      rewrite IH. now rewrite <- !app_assoc.
Qed.

(** The last pattern segment matches the last name of the path. *)
Lemma match_path_last (dot : bool) (pats : list Glob.segment) (toks : str)
      (names : list str) :
  Glob.match_path dot (pats ++ [Glob.Seg toks]) names = true ->
  exists init l, names = init ++ [l] /\ Glob.match_segment dot toks l = true.
Proof.
  revert names; induction pats as [|[|t] pats IH]; intros names.
  - cbn [app Glob.match_path]. destruct names as [|n [|n' names]]; try discriminate.
    + intros H. apply andb_true_iff in H as [H _]. now exists [], n.
    + now rewrite andb_false_r.
  - cbn [app Glob.match_path].
    induction names as [|n names IHn]; intros H.
    + rewrite orb_false_r in H. now apply IH.
    + apply orb_true_iff in H as [H|H]; [now apply IH|].
      apply andb_true_iff in H as [_ H].
      destruct (IHn H) as (init & l & -> & Hl). now exists (n :: init), l.
  - cbn [app Glob.match_path]. destruct names as [|n names]; [discriminate|].
    intros H. apply andb_true_iff in H as [_ H].
    destruct (IH names H) as (init & l & -> & Hl). now exists (n :: init), l.
Qed.

Lemma match_star_suffix (lit name : str) :
  Glob.has_wildcard lit = false ->
  Glob.match_tokens (Glob.star :: lit) name = true ->
  exists x, name = x ++ lit.
Proof.
  intros Hlit. cbn [Glob.match_tokens]. rewrite N.eqb_refl.
  induction name as [|c name IH]; intros H.
  - rewrite orb_false_r, match_tokens_literal in H by assumption.
    apply eqb_eq in H. now exists [].
  - apply orb_true_iff in H as [H|H].
    + rewrite match_tokens_literal in H by assumption.
      apply eqb_eq in H. now exists [].
    + destruct (IH H) as [x ->]. now exists (c :: x).
Qed.

Lemma is_html_split (p : str) :
  is_html p = true ->
  exists init l x,
    JS.split p Glob.slash = js "public" :: init ++ [l] /\ l = x ++ js ".html".
Proof.
  unfold is_html, Glob.matches.
  change (Glob.parse (js "public/**/*.html"))
    with (Glob.Seg (js "public") :: [Glob.Globstar] ++ [Glob.Seg (js "*.html")]).
  destruct (JS.split p Glob.slash) as [|n names]; [discriminate|].
  cbn [Glob.match_path]. intros H. apply andb_true_iff in H as [Hn H].
  unfold Glob.match_segment in Hn.
  rewrite match_tokens_literal, andb_true_r in Hn by reflexivity.
  apply eqb_eq in Hn. subst n.
  apply match_path_last in H as (init & l & -> & Hl).
  unfold Glob.match_segment in Hl. apply andb_true_iff in Hl as [Hl _].
  apply (match_star_suffix (js ".html")) in Hl as [x ->]; [|reflexivity].
  now exists init, (x ++ js ".html"), x.
Qed.

(** An HTML file of the output root: its path starts with [public/] and
    ends in [.html]. *)
Lemma is_html_shape (p : str) :
  is_html p = true ->
  (exists rest, p = js "public" ++ Glob.slash :: rest)
  /\ (exists q, p = q ++ js ".html").
Proof.
  intros H. destruct (is_html_split p H) as (init & l & x & Hs & ->).
  rewrite <- (join_split p Glob.slash), Hs. split.
  - exists (JS.join (init ++ [x ++ js ".html"]) [Glob.slash]).
    rewrite join_cons; [reflexivity|]. now destruct init.
  - destruct (join_last (js "public" :: init) (x ++ js ".html") [Glob.slash])
      as [pre Hpre].
    exists (pre ++ x). cbn [app] in Hpre. rewrite Hpre. now rewrite app_assoc.
Qed.

Lemma last_units_differ (a b : str) (c d : N) :
  a ++ [c] = b ++ [d] -> c <> d -> False.
Proof. intros H Hcd. apply app_inj_tail in H as [_ H]. contradiction. Qed.

(** The URL of no entry is [/404.html], or ends in [/thanks/]: a page of
    the exclusion list cannot be reached through another file either. *)
Theorem excluded_urls_absent (found : list str) :
  Forall (fun i => Sitemap.url i <> js "/404.html"
                   /\ JS.endsWith (Sitemap.url i) (js "/thanks/") = false)
         (entries found).
Proof.
  unfold entries, Seo.links. rewrite !Forall_map. apply Forall_forall.
  intros p Hp. apply filter_In in Hp as [_ Hp].
  apply selected_html in Hp as [Hhtml Hex].
  destruct (is_html_shape p Hhtml) as [[rest Hp] [q Hq]].
  destruct (is_html_split p Hhtml) as (init & l & _ & Hsplit & _).
  cbn [Seo.link Sitemap.url].
  assert (Hu : JS.replace_leading p (js "public") = Glob.slash :: rest)
    by (subst p; reflexivity).
  rewrite Hu. clear Hu. remember (Glob.slash :: rest) as u eqn:Hu.
  assert (Hpu : p = js "public" ++ u) by exact Hp.
  unfold Seo.normalized.
  destruct (JS.endsWith u (js "/index.html")) eqn:Hend.
  - destruct (replace_occurrence u (js "/index.html") (js "/")
                (endsWith_includes _ _ Hend)) as (a & b & Hab & ->).
    pose proof Hend as Hsuffix.
    apply endsWith_spec in Hend as [pre Hpre].
    split.
    + intros Hn. destruct a as [|x a].
      * cbn [app] in Hn. injection Hn as Hb. subst b.
        rewrite Hab in Hsuffix. discriminate Hsuffix.
      * cbn [app] in Hn. injection Hn as _ Hn.
        assert (Hin : In Glob.slash (a ++ 47%N :: b))
          by (apply in_or_app; right; now left).
        rewrite Hn in Hin. cbn in Hin. intuition discriminate.
    + destruct (JS.endsWith (a ++ js "/" ++ b) (js "/thanks/")) eqn:Ht;
        [|reflexivity].
      exfalso. apply endsWith_spec in Ht as [v Hv].
      destruct b as [|b0 btl].
      * (* the suffix is the first occurrence *)
        rewrite app_nil_r in Hv, Hab.
        change (js "/thanks/") with (js "/thanks" ++ js "/") in Hv.
        rewrite app_assoc in Hv. apply app_inj_tail in Hv as [Ha _].
        apply (eq_true_false_abs _ eq_refl). rewrite <- Hex. symmetry.
        apply excluded_spec. right.
        assert (Hfull : p = (js "public" ++ v) ++ Glob.slash
                              :: js "thanks" ++ Glob.slash :: js "index.html").
        { rewrite Hpu, Hab, Ha, <- !app_assoc. reflexivity. }
        rewrite Hfull in Hsplit |- *.
        rewrite split_app_sep in Hsplit |- *.
        rewrite (split_app_sep (js "thanks") (js "index.html")) in Hsplit |- *.
        pose proof (split_not_nil (js "public" ++ v) Glob.slash) as Hne.
        destruct (JS.split (js "public" ++ v) Glob.slash) as [|n ds];
          [contradiction|].
        cbn [app] in Hsplit. injection Hsplit as -> _.
        exists ds. reflexivity.
      * (* something follows the first occurrence *)
        destruct (exists_last (l := b0 :: btl)) as (b' & x & Hb); [discriminate|].
        rewrite Hb in Hv, Hab.
        change (js "/thanks/") with (js "/thanks" ++ [Glob.slash]) in Hv.
        rewrite !app_assoc in Hv. apply app_inj_tail in Hv as [_ Hx]. subst x.
        rewrite Hab in Hpre.
        change (js "/index.html") with (js "/index.htm" ++ [108%N]) in Hpre at 2.
        rewrite !app_assoc in Hpre.
        apply last_units_differ in Hpre;
          [exact Hpre|intros H; vm_compute in H; discriminate H].
  - split.
    + intros Hn. rewrite Hn in Hpu. rewrite Hpu in Hex.
      vm_compute in Hex. discriminate Hex.
    + destruct (JS.endsWith u (js "/thanks/")) eqn:Ht; [|reflexivity].
      exfalso. apply endsWith_spec in Ht as [v Hv].
      rewrite Hpu, Hv in Hq.
      change (js "/thanks/") with (js "/thanks" ++ [Glob.slash]) in Hq.
      change (js ".html") with (js ".htm" ++ [108%N]) in Hq.
      rewrite !app_assoc in Hq.
      apply last_units_differ in Hq;
        [exact Hq|intros H; vm_compute in H; discriminate H].
Qed.

(** *** What a run touches *)

(** A run of the builder changes no directory and no permission, leaves
    every file other than [public/sitemap.xml] and [public/robots.txt] as it
    was, reads the content of no file but the robots file, and ends with
    exit code 0 or 1. *)
Theorem builder_frame (env : process_env) (f : Node.fs) :
  Node.dirs (final (Seo.run env f)) = Node.dirs f
  /\ Node.unreadable (final (Seo.run env f)) = Node.unreadable f
  /\ Node.unwritable (final (Seo.run env f)) = Node.unwritable f
  /\ (forall p, p <> Seo.sitemapPath -> p <> Seo.robotsPath ->
                content (final (Seo.run env f)) p = content f p)
  /\ (forall q, In (Node.ReadFile q) (trace (Seo.run env f)) -> q = Seo.robotsPath)
  /\ (exit_code (Seo.run env f) = 0%Z \/ exit_code (Seo.run env f) = 1%Z).
Proof.
  rewrite run_eq.
  destruct (Fs.scan_result f (js "public")).
  { cbn [final trace exit_code]. repeat split; auto. intros q []. }
  destruct (Fs.write_error f Seo.sitemapPath).
  { cbn [final trace exit_code]. repeat split; auto.
    intros q [H|[]]. discriminate H. }
  destruct (stream_ok env f).
  2:{ cbn [final trace exit_code]. repeat split; auto.
      - intros p Hs _. apply content_with_file_other. congruence.
      - intros q [H|[H|[]]]; discriminate H. }
  set (xml := sitemap_document env f).
  destruct (reconciled_cases (Seo.SITE_URL env) (Fs.with_file f Seo.sitemapPath xml)
              [Node.Scanned (js "public"); Node.WroteFile Seo.sitemapPath xml])
    as (Hexit & Hfinal & Hread).
  assert (Hreads : forall q,
             In (Node.ReadFile q)
                (trace (reconciled (Seo.SITE_URL env)
                          (Fs.with_file f Seo.sitemapPath xml)
                          [Node.Scanned (js "public");
                           Node.WroteFile Seo.sitemapPath xml])) ->
             q = Seo.robotsPath).
  { intros q Hq. destruct (Hread q Hq) as [H|H]; [|exact H].
    cbn [In] in H. intuition discriminate. }
  destruct Hfinal as [-> | ->]; repeat split; auto; intros p Hs Hr.
  - apply content_with_file_other. congruence.
  - rewrite !content_with_file_other by congruence. reflexivity.
Qed.

Lemma builder_frame_witness :
  content (final (Seo.run example_env (example_disk None))) (js "public/index.html")
  = Some (js "<!doctype html>").
Proof.
  apply (proj1 (proj2 (proj2 (proj2 (builder_frame example_env (example_disk None))))));
    discriminate.
Defined.

Lemma read_result_with_file (f : Node.fs) (p q c : str) :
  p <> q -> Fs.read_result (Fs.with_file f p c) q = Fs.read_result f q.
Proof.
  intros Hpq. unfold Fs.read_result. rewrite is_dir_with_file.
  cbn [Node.files Node.unreadable Fs.with_file].
  now rewrite lookup_store_other.
Qed.

Lemma is_file_with_file (f : Node.fs) (p q c : str) :
  p <> q -> Node.is_file (Fs.with_file f p c) q = Node.is_file f q.
Proof.
  intros Hpq. unfold Node.is_file. cbn [Node.files Fs.with_file].
  now rewrite lookup_store_other.
Qed.

(** A robots file that is a directory, or that may not be read, stops the
    run after the sitemap is written: when there is a page to list and the
    origin is accepted, the run ends with exit code 1, the sitemap
    regenerated, nothing else done. *)
Theorem robots_unreadable (env : process_env) (f : Node.fs) :
  walk_succeeds f ->
  Fs.write_error f Seo.sitemapPath = None ->
  entries (listed f) <> [] ->
  Sitemap.accepts (Seo.SITE_URL env) = true ->
  Node.is_dir f Seo.robotsPath = true
  \/ (Node.is_file f Seo.robotsPath = true
      /\ Node.mem Seo.robotsPath (Node.unreadable f) = true) ->
  Seo.run env f
  = mkOutcome 1
      (Fs.with_file f Seo.sitemapPath (sitemap_document env f))
      [Node.Scanned (js "public");
       Node.WroteFile Seo.sitemapPath (sitemap_document env f);
       Node.Probed Seo.robotsPath].
Proof.
  intros [found Hscan] Hwrite Hne Hacc Hrobots.
  assert (Hok : stream_ok env f = true) by (apply stream_ok_spec; now split).
  rewrite run_eq, Hscan, Hwrite, Hok. unfold reconciled.
  rewrite read_result_with_file, is_dir_with_file, is_file_with_file
    by apply sitemap_not_robots.
  unfold Fs.read_result.
  destruct Hrobots as [Hdir|[Hfile Hur]].
  - now rewrite Hdir.
  - rewrite Hfile, orb_true_r.
    destruct (Node.is_dir f Seo.robotsPath); [reflexivity|].
    unfold Node.is_file in Hfile.
    destruct (Node.lookup Seo.robotsPath (Node.files f)); [|discriminate].
    now rewrite Hur.
Qed.

Lemma robots_unreadable_witness :
  exit_code (Seo.run example_env unreadable_robots_disk) = 1%Z
  /\ content (final (Seo.run example_env unreadable_robots_disk)) Seo.robotsPath
     = Some example_robots.
Proof.
  rewrite (robots_unreadable example_env unreadable_robots_disk).
  - split; reflexivity.
  - eexists. reflexivity.
  - reflexivity.
  - intros H. vm_compute in H. discriminate H.
  - reflexivity.
  - right. split; reflexivity.
Defined.

(** Every entry has a site-root-relative URL: it starts with [/]. *)
Theorem entry_urls_rooted (found : list str) :
  Forall (fun i => JS.startsWith (Sitemap.url i) (js "/") = true) (entries found).
Proof.
  unfold entries, Seo.links. rewrite !Forall_map. apply Forall_forall.
  intros p Hp. apply filter_In in Hp as [_ Hp].
  apply selected_html in Hp as [Hhtml _].
  destruct (is_html_shape p Hhtml) as [[rest ->] _].
  cbn [Seo.link Sitemap.url].
  change (JS.replace_leading (js "public" ++ Glob.slash :: rest) (js "public"))
    with (Glob.slash :: rest).
  unfold Seo.normalized.
  destruct (JS.endsWith (Glob.slash :: rest) (js "/index.html")) eqn:Hend;
    [|reflexivity].
  destruct (replace_occurrence (Glob.slash :: rest) (js "/index.html") (js "/")
              (endsWith_includes _ _ Hend)) as (a & b & Hab & ->).
  destruct a as [|x a]; [reflexivity|].
  cbn [app] in Hab. injection Hab as <- _. reflexivity.
Qed.

(* ================================================================== *)
(** ** A stream that fails *)
(* ================================================================== *)

(** With no page to list the builder fails once the sitemap file is
    opened: the run ends with exit code 1 and leaves an empty sitemap; the
    robots step does not take place, so that the robots file is neither
    read nor written. *)
Theorem builder_without_pages (env : process_env) (f : Node.fs) :
  walk_succeeds f ->
  Fs.write_error f Seo.sitemapPath = None ->
  entries (listed f) = [] ->
  Seo.run env f
  = mkOutcome 1 (Fs.with_file f Seo.sitemapPath [])
      [Node.Scanned (js "public"); Node.WroteFile Seo.sitemapPath []]
  /\ content (final (Seo.run env f)) Seo.sitemapPath = Some []
  /\ content (final (Seo.run env f)) Seo.robotsPath = content f Seo.robotsPath.
Proof.
  intros [found Hscan] Hwrite Hnone.
  assert (Hok : stream_ok env f = false).
  { unfold stream_ok. now rewrite Hnone. }
  rewrite run_eq, Hscan, Hwrite, Hok. cbn [final].
  split; [reflexivity|]. split; [apply content_with_file_same|].
  apply content_with_file_other, sitemap_not_robots.
Qed.

Lemma builder_without_pages_witness :
  exit_code (Seo.run example_env pageless_disk) = 1%Z
  /\ content (final (Seo.run example_env pageless_disk)) Seo.sitemapPath = Some []
  /\ content (final (Seo.run example_env pageless_disk)) Seo.robotsPath
     = Some stale_robots.
Proof.
  destruct (builder_without_pages example_env pageless_disk) as (Hrun & Hmap & Hrobots).
  - eexists. reflexivity.
  - reflexivity.
  - reflexivity.
  - split; [now rewrite Hrun|]. split; [exact Hmap|]. rewrite Hrobots. reflexivity.
Defined.

(** A value of [SITE_URL] that is no URL stops the stream at the first
    page. *)
Example origin_not_a_url :
  Sitemap.accepts (js "https://www.gringo787.com") = true
  /\ Sitemap.accepts (js "http://localhost:5173") = true
  /\ Sitemap.accepts (js "not a url") = false
  /\ Seo.run (mkEnv (Some (js "not a url")) None) (example_disk (Some stale_robots))
     = mkOutcome 1
         (Fs.with_file (example_disk (Some stale_robots)) Seo.sitemapPath [])
         [Node.Scanned (js "public"); Node.WroteFile Seo.sitemapPath []].
Proof. repeat split; vm_compute; reflexivity. Qed.

(* ================================================================== *)
(** ** The robots script and the builder on one disk *)
(* ================================================================== *)

Lemma trimEnd_white (s : str) (w : N) :
  JS.is_white w = true -> JS.trimEnd (s ++ [w]) = JS.trimEnd s.
Proof.
  intros Hw. unfold JS.trimEnd. rewrite rev_unit. cbn [JS.trimStart].
  now rewrite Hw.
Qed.

Lemma trimEnd_kept (s : str) (c : N) :
  JS.is_white c = false -> JS.trimEnd (s ++ [c]) = s ++ [c].
Proof.
  intros Hc. unfold JS.trimEnd. rewrite rev_unit. cbn [JS.trimStart].
  rewrite Hc. cbn [rev]. now rewrite rev_involutive.
Qed.

(** Trimming a text that starts and ends with ink and is closed by one line
    feed removes that line feed. *)
Lemma trim_line (c k : N) (body : str) :
  JS.is_white c = false -> JS.is_white k = false ->
  JS.trim (((c :: body) ++ [k]) ++ nl) = (c :: body) ++ [k].
Proof.
  intros Hc Hk. unfold JS.trim.
  cbn [app JS.trimStart]. rewrite Hc.
  change (c :: (body ++ [k]) ++ nl) with (((c :: body) ++ [k]) ++ [10%N]).
  rewrite trimEnd_white by reflexivity. now apply trimEnd_kept.
Qed.

Lemma trim_desired (site : str) :
  JS.trim (Seo.desired site)
  = js "User-agent: *" ++ nl ++ js "Allow: /" ++ nl
    ++ js "Sitemap: " ++ site ++ js "/sitemap.xml".
Proof.
  transitivity
    (JS.trim (((85%N :: js "ser-agent: *" ++ nl ++ js "Allow: /" ++ nl
                ++ js "Sitemap: " ++ site ++ js "/sitemap.xm") ++ [108%N]) ++ nl)).
  - f_equal. unfold Seo.desired.
    change (js "/sitemap.xml") with (js "/sitemap.xm" ++ [108%N]).
    change (js "User-agent: *") with (85%N :: js "ser-agent: *").
    cbn [app]. f_equal. now rewrite <- !app_assoc.
  - rewrite trim_line by reflexivity.
    change (js "/sitemap.xml") with (js "/sitemap.xm" ++ [108%N]).
    change (js "User-agent: *") with (85%N :: js "ser-agent: *").
    cbn [app]. f_equal. now rewrite <- !app_assoc.
Qed.

Lemma trim_robotsContent (env : process_env) :
  JS.trim (Robots.robotsContent env)
  = js "User-agent: *" ++ nl ++ js "Allow: /" ++ nl ++ nl
    ++ js "Sitemap: " ++ Robots.siteUrl env ++ js "/sitemap.xml".
Proof.
  transitivity
    (JS.trim (((85%N :: js "ser-agent: *" ++ nl ++ js "Allow: /" ++ nl ++ nl
                ++ js "Sitemap: " ++ Robots.siteUrl env ++ js "/sitemap.xm")
               ++ [108%N]) ++ nl)).
  - f_equal. unfold Robots.robotsContent.
    change (js "/sitemap.xml") with (js "/sitemap.xm" ++ [108%N]).
    change (js "User-agent: *") with (85%N :: js "ser-agent: *").
    cbn [app]. f_equal. now rewrite <- !app_assoc.
  - rewrite trim_line by reflexivity.
    change (js "/sitemap.xml") with (js "/sitemap.xm" ++ [108%N]).
    change (js "User-agent: *") with (85%N :: js "ser-agent: *").
    cbn [app]. f_equal. now rewrite <- !app_assoc.
Qed.

Lemma directives_differ (env : process_env) (site : str) :
  JS.trim (Robots.robotsContent env) <> JS.trim (Seo.desired site).
Proof.
  rewrite trim_robotsContent, trim_desired.
  intros H. do 4 apply app_inv_head in H. discriminate H.
Qed.

Lemma mem_app_last (p : str) (l : list str) : Node.mem p (l ++ [p]) = true.
Proof.
  unfold Node.mem. rewrite existsb_app. cbn [existsb].
  rewrite eqb_refl. now rewrite orb_true_r.
Qed.

(** What a completed run of the robots script has done: on the disk [g],
    which is the disk it found or that disk with the output root made, it
    wrote its directive. *)
Lemma robots_completed (env : process_env) (f : Node.fs) :
  exit_code (Robots.run env f) = 0%Z ->
  exists g,
    (g = f \/ g = Fs.with_dir f (js "public"))
    /\ Node.is_dir g (js "public") = true
    /\ Fs.write_error g (js "public/robots.txt") = None
    /\ final (Robots.run env f)
       = Fs.with_file g (js "public/robots.txt") (Robots.robotsContent env).
Proof.
  rewrite robots_run_eq. cbv zeta.
  destruct (Node.is_dir f (js "public")) eqn:Hdir.
  - cbn [orb].
    destruct (Fs.write_error f (js "public/robots.txt")) eqn:Hw; [discriminate|].
    intros _. exists f. auto.
  - cbn [orb]. destruct (Node.is_file f (js "public")).
    + unfold Fs.write_error.
      change (Node.dirname (js "public/robots.txt")) with (js "public").
      rewrite Hdir. cbn [negb].
      destruct (Node.is_dir f (js "public/robots.txt")); discriminate.
    + destruct (Fs.mkdir_error f (js "public")); [discriminate|].
      destruct (Fs.write_error (Fs.with_dir f (js "public")) (js "public/robots.txt"))
        eqn:Hw; [discriminate|].
      intros _. exists (Fs.with_dir f (js "public")).
      split; [now right|]. split; [|now split].
      unfold Node.is_dir, Fs.with_dir. cbn [Node.dirs].
      rewrite mem_app_last. apply orb_true_r.
Qed.

(** A completed run of [scripts/robots.js] leaves [public/robots.txt] with
    exactly its directive and the output root in place; it changes no other
    file and no permission, and makes no directory but the output root. *)
Theorem robots_script_result (env : process_env) (f : Node.fs) :
  exit_code (Robots.run env f) = 0%Z ->
  content (final (Robots.run env f)) (js "public/robots.txt")
  = Some (Robots.robotsContent env)
  /\ Node.is_dir (final (Robots.run env f)) (js "public") = true
  /\ (forall p, p <> js "public/robots.txt" ->
                content (final (Robots.run env f)) p = content f p)
  /\ (Node.dirs (final (Robots.run env f)) = Node.dirs f
      \/ Node.dirs (final (Robots.run env f)) = Node.dirs f ++ [js "public"])
  /\ Node.unreadable (final (Robots.run env f)) = Node.unreadable f
  /\ Node.unwritable (final (Robots.run env f)) = Node.unwritable f.
Proof.
  intros Hexit.
  destruct (robots_completed env f Hexit) as (g & Hg & Hdir & _ & ->).
  split; [apply content_with_file_same|].
  split; [now rewrite is_dir_with_file|].
  split.
  - intros p Hp. rewrite content_with_file_other by congruence.
    now destruct Hg as [-> | ->].
  - destruct Hg as [-> | ->]; cbn [Fs.with_file Fs.with_dir Node.dirs
                                   Node.unreadable Node.unwritable]; auto.
Qed.

Lemma robots_script_result_witness :
  content (final (Robots.run production_env empty_disk)) (js "public/robots.txt")
  = Some (Robots.robotsContent production_env).
Proof.
  apply (robots_script_result production_env empty_disk). reflexivity.
Defined.

(** A second run of [scripts/robots.js] completes and leaves the disk as
    the first left it, but writes the file again. *)
Theorem robots_script_again (env : process_env) (f : Node.fs) :
  exit_code (Robots.run env f) = 0%Z ->
  Robots.run env (final (Robots.run env f))
  = mkOutcome 0 (final (Robots.run env f))
      [Node.Probed (js "public");
       Node.WroteFile (js "public/robots.txt") (Robots.robotsContent env)].
Proof.
  intros Hexit.
  destruct (robots_completed env f Hexit) as (g & _ & Hdir & Hw & ->).
  set (h := Fs.with_file g (js "public/robots.txt") (Robots.robotsContent env)).
  assert (Hc : content h (js "public/robots.txt") = Some (Robots.robotsContent env))
    by apply content_with_file_same.
  rewrite robots_run_eq. cbv zeta.
  assert (Hdir' : Node.is_dir h (js "public") = true) by exact Hdir.
  rewrite Hdir'. cbn [orb].
  rewrite (write_error_existing g h (js "public/robots.txt") Hw eq_refl eq_refl)
    by (apply is_file_content; eauto).
  now rewrite (with_file_same h _ _ Hc).
Qed.

Lemma robots_script_again_witness :
  trace (Robots.run production_env (final (Robots.run production_env empty_disk)))
  = [Node.Probed (js "public");
     Node.WroteFile (js "public/robots.txt") (Robots.robotsContent production_env)].
Proof.
  rewrite (robots_script_again production_env empty_disk); reflexivity.
Defined.

(** The directive of [scripts/robots.js] never passes the builder's
    comparison, whatever the two origins are: a builder run that completes
    on a disk where the robots script ran overwrites the robots file. *)
Theorem builder_rewrites_after_robots_script
        (env env' : process_env) (f : Node.fs) :
  exit_code (Robots.run env' f) = 0%Z ->
  exit_code (Seo.run env (final (Robots.run env' f))) = 0%Z ->
  JS.trim (Robots.robotsContent env') <> JS.trim (Seo.desired (Seo.SITE_URL env))
  /\ In (Node.WroteFile Seo.robotsPath (Seo.desired (Seo.SITE_URL env)))
        (trace (Seo.run env (final (Robots.run env' f))))
  /\ content (final (Seo.run env (final (Robots.run env' f)))) Seo.robotsPath
     = Some (Seo.desired (Seo.SITE_URL env)).
Proof.
  intros H1 H2. split; [apply directives_differ|].
  assert (Hc : content (final (Robots.run env' f)) (js "public/robots.txt")
               = Some (Robots.robotsContent env')).
  { destruct (robots_completed env' f H1) as (g & _ & _ & _ & ->).
    apply content_with_file_same. }
  revert H2. rewrite run_eq.
  set (h := final (Robots.run env' f)) in *.
  destruct (Fs.scan_result h (js "public")); [discriminate|].
  destruct (Fs.write_error h Seo.sitemapPath); [discriminate|].
  destruct (stream_ok env h); [|discriminate].
  intros Hexit. apply reconciled_differing in Hexit as [Hin Hfinal].
  - split; [exact Hin|]. rewrite Hfinal. apply content_with_file_same.
  - intros c. rewrite content_with_file_other by apply sitemap_not_robots.
    change Seo.robotsPath with (js "public/robots.txt"). rewrite Hc.
    intros [= <-]. apply directives_differ.
Qed.

Lemma builder_rewrites_after_robots_script_witness :
  content (final (Seo.run production_env
                    (final (Robots.run production_env (example_disk None)))))
          Seo.robotsPath
  = Some (Seo.desired (js "https://www.gringo787.com")).
Proof.
  apply (builder_rewrites_after_robots_script production_env production_env
           (example_disk None)); reflexivity.
Defined.

(* ================================================================== *)
(** ** The earlier sitemap script *)
(* ================================================================== *)

Lemma legacy_selected (p : str) :
  Glob.selected LegacySeo.patterns p
  = is_html p
    && negb (existsb (Glob.match_path true (Glob.parse (js "public/404.html")))
                     (Glob.prefixes (JS.split p Glob.slash))).
Proof.
  unfold LegacySeo.patterns, is_html.
  cbn [Glob.selected Glob.ignored existsb].
  change (Glob.is_negative (js "public/**/*.html")) with false.
  change (Glob.is_negative (js "!public/404.html")) with true.
  change (skipn 1 (js "!public/404.html")) with (js "public/404.html").
  cbn [andb]. now rewrite !orb_false_r.
Qed.

(** The earlier script lists every page the builder lists; the pages it
    lists beyond them are the thank-you pages and the pages below a
    directory that has the path of a thank-you page, so it writes at least
    as many entries. *)
Theorem legacy_lists_more :
  (forall p, Glob.selected Seo.GLOBS p = true ->
             Glob.selected LegacySeo.patterns p = true)
  /\ (forall p, Glob.selected LegacySeo.patterns p = true ->
                Glob.selected Seo.GLOBS p = false ->
                exists ds rest,
                  JS.split p Glob.slash
                  = js "public" :: ds ++ [js "thanks"; js "index.html"] ++ rest)
  /\ (forall found,
         (length (entries found)
          <= length (LegacySeo.urls (filter (Glob.selected LegacySeo.patterns) found)))%nat).
Proof.
  assert (Hpruned : forall p,
             pruned p
             = existsb (Glob.match_path true (Glob.parse (js "public/404.html")))
                       (Glob.prefixes (JS.split p Glob.slash))
               || existsb (Glob.match_path true
                             (Glob.parse (js "public/**/thanks/index.html")))
                          (Glob.prefixes (JS.split p Glob.slash))).
  { intros p. unfold pruned, names_excluded. apply existsb_orb. }
  assert (Hsub : forall p, Glob.selected Seo.GLOBS p = true ->
                           Glob.selected LegacySeo.patterns p = true).
  { intros p. rewrite selected_GLOBS, legacy_selected, Hpruned.
    destruct (is_html p); [|discriminate].
    destruct (existsb _ _); [discriminate|reflexivity]. }
  split; [exact Hsub|]. split.
  - intros p. rewrite selected_GLOBS, legacy_selected, Hpruned.
    destruct (is_html p); [|discriminate]. cbn [andb].
    intros H404 Hex. apply negb_true_iff in H404. rewrite H404 in Hex.
    cbn [orb] in Hex. apply negb_false_iff in Hex.
    apply existsb_exists in Hex as (names & Hin & Hn).
    apply prefixes_spec in Hin as [_ [rest Hs]].
    assert (Hex : names_excluded names = true)
      by (unfold names_excluded; rewrite Hn; apply orb_true_r).
    apply names_excluded_spec in Hex as [->|[ds ->]].
    + discriminate Hn.
    + exists ds, rest. rewrite Hs. cbn [app]. now rewrite <- app_assoc.
  - intros found. unfold entries, Seo.links, LegacySeo.urls. rewrite !length_map.
    induction found as [|p found IH]; [apply Nat.le_refl|].
    cbn [filter].
    destruct (Glob.selected Seo.GLOBS p) eqn:E.
    + rewrite (Hsub p E). cbn [length]. lia.
    + destruct (Glob.selected LegacySeo.patterns p); cbn [length]; lia.
Qed.

Lemma legacy_lists_more_witness :
  Glob.selected LegacySeo.patterns (js "public/contact/index.html") = true
  /\ (exists ds rest,
         JS.split (js "public/es/thanks/index.html") Glob.slash
         = js "public" :: ds ++ [js "thanks"; js "index.html"] ++ rest)
  /\ (exists ds rest,
         JS.split thanks_directory_page Glob.slash
         = js "public" :: ds ++ [js "thanks"; js "index.html"] ++ rest).
Proof.
  split; [|split].
  - apply (proj1 legacy_lists_more). reflexivity.
  - apply (proj1 (proj2 legacy_lists_more)); reflexivity.
  - apply (proj1 (proj2 legacy_lists_more)); reflexivity.
Defined.

Lemma in_skipn_in {A} (x : A) (n : nat) (l : list A) : In x (skipn n l) -> In x l.
Proof.
  intros H. rewrite <- (firstn_skipn n l). apply in_or_app. now right.
Qed.

Lemma in_firstn_in {A} (x : A) (n : nat) (l : list A) : In x (firstn n l) -> In x l.
Proof.
  intros H. rewrite <- (firstn_skipn n l). apply in_or_app. now left.
Qed.

Lemma replace_all_unit_absent (s : str) (c d : N) :
  ~ In c s -> JS.replace_all_unit s c d = s.
Proof.
  unfold JS.replace_all_unit. induction s as [|x s IH]; [reflexivity|].
  intros H. cbn [map]. destruct (N.eqb x c) eqn:E.
  - apply N.eqb_eq in E. subst x. exfalso. apply H. now left.
  - rewrite IH; [reflexivity|]. intros Hin. apply H. now right.
Qed.

(** No URL of the earlier script contains a backslash. *)
Theorem legacy_url_no_backslash (page : str) :
  existsb (N.eqb 92) (LegacySeo.url_of page) = false.
Proof.
  unfold LegacySeo.url_of, JS.replace_all_unit.
  induction (JS.replace_trailing (JS.replace_leading page (js "public"))
                                 (js "index.html")) as [|x s IH];
    [reflexivity|].
  cbn [map existsb]. rewrite IH, orb_false_r.
  destruct (N.eqb x 92) eqn:E; [reflexivity|].
  now rewrite N.eqb_sym.
Qed.

Lemma replace_leading_in (x : N) (s p : str) :
  In x (JS.replace_leading s p) -> In x s.
Proof.
  unfold JS.replace_leading. destruct (JS.startsWith s p); [|auto].
  apply in_skipn_in.
Qed.

(** The two generations derive the same URL for a page whose path holds no
    backslash and either does not end in [index.html], or ends in
    [/index.html] with no earlier [/index.html]. *)
Theorem generations_agree (p : str) :
  ~ In 92%N p ->
  JS.endsWith (JS.replace_leading p (js "public")) (js "index.html") = false
  \/ (JS.endsWith (JS.replace_leading p (js "public")) (js "/index.html") = true
      /\ JS.includes (removelast (JS.replace_leading p (js "public")))
                     (js "/index.html") = false) ->
  LegacySeo.url_of p = Seo.normalized (JS.replace_leading p (js "public")).
Proof.
  intros Hp Hcase. unfold LegacySeo.url_of.
  set (u := JS.replace_leading p (js "public")) in *.
  assert (Hu : ~ In 92%N u) by (intros H; apply Hp; now apply replace_leading_in in H).
  unfold JS.replace_trailing, Seo.normalized.
  destruct Hcase as [Hend|[Hend Hnone]].
  - rewrite Hend.
    destruct (JS.endsWith u (js "/index.html")) eqn:Hend'.
    + apply endsWith_spec in Hend' as [pre Hpre].
      assert (JS.endsWith u (js "index.html") = true); [|congruence].
      apply endsWith_spec. exists (pre ++ js "/"). rewrite Hpre.
      now rewrite <- app_assoc.
    + now apply replace_all_unit_absent.
  - rewrite Hend. pose proof Hend as Hsplit.
    apply endsWith_spec in Hsplit as [pre Hpre].
    assert (Hlong : JS.endsWith u (js "index.html") = true).
    { apply endsWith_spec. exists (pre ++ js "/"). rewrite Hpre.
      now rewrite <- app_assoc. }
    rewrite Hlong.
    assert (Hcut : firstn (length u - length (js "index.html")) u = pre ++ js "/").
    { rewrite Hpre. change (js "/index.html") with (js "/" ++ js "index.html").
      rewrite app_assoc, length_app, Nat.add_sub.
      now rewrite firstn_app, Nat.sub_diag, firstn_all, app_nil_r. }
    rewrite Hcut.
    rewrite replace_all_unit_absent.
    + rewrite Hpre in Hnone |- *. symmetry. now apply replace_suffix.
    + rewrite <- Hcut. intros H. apply Hu. now apply in_firstn_in in H.
Qed.

Lemma generations_agree_witness :
  LegacySeo.url_of (js "public/es/servicios/index.html")
  = Seo.normalized (js "/es/servicios/index.html")
  /\ LegacySeo.url_of (js "public/about.html") = Seo.normalized (js "/about.html").
Proof.
  split.
  - apply (generations_agree (js "public/es/servicios/index.html")).
    + cbn. intuition discriminate.
    + right. split; reflexivity.
  - apply (generations_agree (js "public/about.html")).
    + cbn. intuition discriminate.
    + left. reflexivity.
Defined.

(** Where they part: a page whose name merely ends in [index.html]. *)
Example generations_differ :
  LegacySeo.url_of (js "public/old-index.html") = js "/old-"
  /\ Seo.normalized (js "/old-index.html") = js "/old-index.html".
Proof. split; reflexivity. Qed.

Lemma legacy_hostname_accepted (env : process_env) :
  Sitemap.accepts (LegacySeo.hostname env) = true.
Proof. unfold LegacySeo.hostname. destruct (isProd env); reflexivity. Qed.

(** A run of the earlier script completes exactly when the walk is not
    refused, lists a page, and the write of the sitemap is not refused; it
    ends with exit code 1 otherwise, the disk left as it was.  A completed
    run leaves the sitemap for its own origin.  No run changes another
    file, [public/robots.txt] included, or a directory. *)
Theorem legacy_run_result (env : process_env) (f : Node.fs) :
  (exit_code (LegacySeo.run env f) = 0%Z
   <-> walk_succeeds f
       /\ filter (Glob.selected LegacySeo.patterns) (listed f) <> []
       /\ Fs.write_error f (js "public/sitemap.xml") = None)
  /\ (exit_code (LegacySeo.run env f) = 0%Z \/ exit_code (LegacySeo.run env f) = 1%Z)
  /\ (exit_code (LegacySeo.run env f) = 1%Z -> final (LegacySeo.run env f) = f)
  /\ (exit_code (LegacySeo.run env f) = 0%Z ->
      content (final (LegacySeo.run env f)) (js "public/sitemap.xml")
      = Some (Sitemap.render (LegacySeo.hostname env)
                (map (fun u => Sitemap.mkItem u None None)
                     (LegacySeo.urls
                        (filter (Glob.selected LegacySeo.patterns) (listed f))))))
  /\ (forall p, p <> js "public/sitemap.xml" ->
                content (final (LegacySeo.run env f)) p = content f p)
  /\ Node.dirs (final (LegacySeo.run env f)) = Node.dirs f
  /\ ~ wrote (js "public/robots.txt") (trace (LegacySeo.run env f)).
Proof.
  rewrite legacy_run_eq. unfold walk_succeeds, listed.
  destruct (Fs.scan_result f (js "public")) as [e|found].
  { cbn [exit_code final trace]. repeat split; auto; try discriminate.
    - intros [[x Hx] _]. discriminate Hx.
    - intros [c []]. }
  unfold Sitemap.stream, LegacySeo.urls. rewrite legacy_hostname_accepted.
  destruct (filter (Glob.selected LegacySeo.patterns) found) as [|page pages].
  { cbn [map exit_code final trace]. repeat split; auto; try discriminate.
    - intros (_ & H & _). now contradiction H.
    - intros [c [H|[]]]. discriminate H. }
  cbn [map].
  destruct (Fs.write_error f (js "public/sitemap.xml")) as [e|].
  { cbn [exit_code final trace]. repeat split; auto; try discriminate.
    - intros (_ & _ & H). discriminate H.
    - intros [c [H|[]]]. discriminate H. }
  cbn [exit_code final trace].
  split.
  { split; [|reflexivity]. intros _. split; [eauto|]. split; [discriminate|reflexivity]. }
  split; [now left|].
  split; [discriminate|].
  split; [intros _; apply content_with_file_same|].
  split; [intros p Hp; apply content_with_file_other; congruence|].
  split; [reflexivity|].
  intros [c [H|[H|[]]]]; discriminate H.
Qed.

Lemma legacy_run_result_witness :
  content (final (LegacySeo.run production_env (example_disk None)))
          (js "public/sitemap.xml")
  = Some (Sitemap.render (LegacySeo.hostname production_env)
            (map (fun u => Sitemap.mkItem u None None)
                 (LegacySeo.urls
                    (filter (Glob.selected LegacySeo.patterns)
                            (listed (example_disk None))))))
  /\ final (LegacySeo.run production_env pageless_disk) = pageless_disk.
Proof.
  split.
  - apply (proj1 (proj2 (proj2 (proj2
             (legacy_run_result production_env (example_disk None)))))).
    reflexivity.
  - apply (proj1 (proj2 (proj2 (legacy_run_result production_env pageless_disk)))).
    reflexivity.
Defined.

(* ================================================================== *)
(** ** More on the build validator *)
(* ================================================================== *)

Lemma split_absent (s : str) (sep : N) : ~ In sep s -> JS.split s sep = [s].
Proof.
  induction s as [|c s IH]; [reflexivity|].
  intros H. cbn [JS.split]. destruct (N.eqb c sep) eqn:E.
  - apply N.eqb_eq in E. subst c. exfalso. apply H. now left.
  - rewrite IH; [reflexivity|]. intros Hin. apply H. now right.
Qed.

Lemma cleanLink_query (l q : str) :
  ~ In 63%N l -> ValidateBuild.cleanLink (l ++ 63%N :: q) = l.
Proof.
  intros H. unfold ValidateBuild.cleanLink.
  now rewrite split_app_sep, split_absent.
Qed.

Lemma cleanLink_plain (l : str) :
  ~ In 63%N l -> ValidateBuild.cleanLink l = l.
Proof.
  intros H. unfold ValidateBuild.cleanLink. now rewrite split_absent.
Qed.

(** A query string does not count: a reference with a query is looked up
    at the path of the reference without it, and is found or not as that
    one is. *)
Theorem query_ignored (t : ValidateBuild.tree) (l q : str) :
  ~ In 63%N l ->
  ValidateBuild.assetPath (ValidateBuild.distDir t) (l ++ 63%N :: q)
  = ValidateBuild.assetPath (ValidateBuild.distDir t) l
  /\ (l <> [] -> unresolved t (Some (l ++ 63%N :: q)) = unresolved t (Some l)).
Proof.
  intros H.
  assert (Hpath : ValidateBuild.assetPath (ValidateBuild.distDir t) (l ++ 63%N :: q)
                  = ValidateBuild.assetPath (ValidateBuild.distDir t) l).
  { unfold ValidateBuild.assetPath. now rewrite cleanLink_query, cleanLink_plain. }
  split; [exact Hpath|].
  intros Hl. destruct l as [|c l]; [contradiction|].
  cbn [app unresolved]. cbn [app] in Hpath. now rewrite Hpath.
Qed.

Lemma query_ignored_witness :
  unresolved broken_build (Some (js "/styles.css?v=3"))
  = unresolved broken_build (Some (js "/styles.css")).
Proof.
  apply (query_ignored broken_build (js "/styles.css") (js "v=3")).
  - cbn. intuition discriminate.
  - discriminate.
Defined.

Lemma cleanLink_cons (c : N) (l : str) :
  N.eqb c 63 = false ->
  ValidateBuild.cleanLink (c :: l) = c :: ValidateBuild.cleanLink l.
Proof.
  intros Hc. unfold ValidateBuild.cleanLink. cbn [JS.split]. rewrite Hc.
  pose proof (split_not_nil l 63) as Hne.
  destruct (JS.split l 63); [contradiction|reflexivity].
Qed.

Lemma cleanLink_no_slash (l : str) :
  JS.startsWith l (js "/") = false ->
  JS.startsWith (ValidateBuild.cleanLink l) (js "/") = false.
Proof.
  destruct l as [|c l]; [reflexivity|].
  intros H. destruct (N.eqb c 63) eqn:E.
  - unfold ValidateBuild.cleanLink. cbn [JS.split]. now rewrite E.
  - rewrite cleanLink_cons by assumption.
    cbn [JS.startsWith js] in H |- *. exact H.
Qed.

(** A root-relative reference and the same reference without its leading
    slash are looked up at the same path. *)
Theorem leading_slash_ignored (dist : ValidateBuild.path) (l : str) :
  JS.startsWith l (js "/") = false ->
  ValidateBuild.assetPath dist (js "/" ++ l) = ValidateBuild.assetPath dist l.
Proof.
  intros H. unfold ValidateBuild.assetPath.
  change (js "/" ++ l) with (47%N :: l).
  rewrite cleanLink_cons by reflexivity.
  change (JS.replace_leading (47%N :: ValidateBuild.cleanLink l) (js "/"))
    with (ValidateBuild.cleanLink l).
  unfold JS.replace_leading. now rewrite cleanLink_no_slash.
Qed.

Lemma leading_slash_ignored_witness :
  ValidateBuild.assetPath [js "site"; js "dist"] (js "/assets/app.js?v=1")
  = ValidateBuild.assetPath [js "site"; js "dist"] (js "assets/app.js?v=1").
Proof.
  apply (leading_slash_ignored [js "site"; js "dist"] (js "assets/app.js?v=1")).
  reflexivity.
Defined.

Lemma filter_none {A} (keep : A -> bool) (l : list A) :
  (forall x, In x l -> keep x = false) -> filter keep l = [].
Proof.
  induction l as [|x l IH]; [reflexivity|].
  intros H. cbn [filter]. rewrite (H x (or_introl eq_refl)).
  apply IH. intros y Hy. apply H. now right.
Qed.

(** Only the [.html] files directly in [dist] are read: when there is
    none, the validator ends with exit code 0 after listing [dist], whatever
    the pages deeper in the tree link. *)
Theorem validator_top_level_only (t : ValidateBuild.tree) :
  ValidateBuild.node_at t (ValidateBuild.distDir t) = Some ValidateBuild.Directory ->
  (forall name n,
      In (name, n) (ValidateBuild.children (ValidateBuild.distDir t)
                                           (ValidateBuild.entries t)) ->
      ValidateBuild.isFile n && JS.endsWith name (js ".html") = false) ->
  ValidateBuild.run t
  = mkOutcome 0 t
      [Node.Probed (ValidateBuild.show (ValidateBuild.distDir t));
       Node.Scanned (ValidateBuild.show (ValidateBuild.distDir t))].
Proof.
  intros Hdist Hnone.
  unfold ValidateBuild.run, run_script, ValidateBuild.main,
    ValidateBuild.existsSync, ValidateBuild.readdirSync.
  io_unfold. unfold ValidateBuild.present. cbn [fst snd].
  rewrite Hdist. cbn [negb]. io_unfold. rewrite Hdist. io_unfold.
  unfold ValidateBuild.htmlFiles. rewrite filter_none.
  - reflexivity.
  - intros [name n] Hin. cbn [fst snd]. now apply Hnone.
Qed.

Lemma validator_top_level_only_witness :
  exit_code (ValidateBuild.run nested_build) = 0%Z.
Proof.
  rewrite (validator_top_level_only nested_build).
  - reflexivity.
  - reflexivity.
  - intros name n Hin. cbn in Hin. destruct Hin as [[= <- <-]|[]]. reflexivity.
Defined.
